(** * DocxCollab: the document editor's autosave path, import and export

    A shallow embedding of the components kept in
    [src/components/DocumentList.tsx]: [DocumentList] (lines 34-340) and
    [DocumentEditor] with its [debounce] helper (lines 803-1054).  React
    state is a record; every event handler is a function on that record;
    an [async] handler is cut at its [await] into the part that runs when
    the handler is called and the part that runs when the awaited call
    settles.  A closure created during a render keeps the values that the
    state variables had in that render: a timer armed by [debouncedSave]
    therefore carries its own copies of [document] and [saving]. *)

From Stdlib Require Import ZArith Lia Ascii String.
From stdpp Require Import base option list strings gmap pretty sorting.

Local Open Scope Z_scope.
Local Open Scope string_scope.
Local Open Scope list_scope.

(** ** Shared data *)

(** [new Date()] is a number of milliseconds; the source renders it with
    [toISOString()], an injective rendering that the model leaves out. *)
Definition Time := Z.

(** interface Document / DocumentData *)
Record DocumentData := mkDocument {
  id : string;
  title : string;
  content : string;
  owner_user_id : string;
  created_at : Time;
  updated_at : Time
}.

#[global] Instance DocumentData_eq_dec : EqDecision DocumentData.
Proof. solve_decision. Defined.

Inductive Variant := Default | Destructive.

#[global] Instance Variant_eq_dec : EqDecision Variant.
Proof. solve_decision. Defined.

(** The argument of [toast({ title, description, variant })]. *)
Record Toast := mkToast {
  toast_title : string;
  toast_description : string;
  toast_variant : Variant
}.

#[global] Instance Toast_eq_dec : EqDecision Toast.
Proof. solve_decision. Defined.

(** [x || ''] on an optional string: [undefined] and [''] are both falsy. *)
Definition or_empty (x : option string) : string :=
  match x with
  | Some s => if decide (s = "") then "" else s
  | None => ""
  end.

(** ** The Content Store, [blink.db.documents] *)

(** The second argument of [update(id, { ... })]: the fields a call names. *)
Record Fields := mkFields {
  f_title : option string;
  f_content : option string;
  f_updated_at : option Time
}.

#[global] Instance Fields_eq_dec : EqDecision Fields.
Proof. solve_decision. Defined.

Definition patch (f : Fields) (d : DocumentData) : DocumentData :=
  {| id := id d;
     title := default (title d) (f_title f);
     content := default (content d) (f_content f);
     owner_user_id := owner_user_id d;
     created_at := created_at d;
     updated_at := default (updated_at d) (f_updated_at f) |}.

(** Modelled from the spec: the client in [src/blink/client] is not among
    the sources.  [update(documentId, partialFields)] overwrites the named
    fields of the record with that id, last write wins. *)
Definition db_update (i : string) (f : Fields) (db : gmap string DocumentData)
  : gmap string DocumentData :=
  alter (patch f) i db.

(** Modelled from the spec: [create(fields)] of the absent client stores
    the record under its id and returns it. *)
Definition db_create (d : DocumentData) (db : gmap string DocumentData)
  : gmap string DocumentData :=
  <[id d := d]> db.

(** Modelled from the spec: [list(filter)] of the absent client, for
    [where: { id }] and [limit: 1]: the record with that id, if any. *)
Definition db_list_by_id (i : string) (db : gmap string DocumentData)
  : list DocumentData :=
  take 1 (option_list (db !! i)).

(** ** The [debounce] utility

    [debounce(func, wait)] owns one [timeout] variable.  Every call of the
    returned function clears it and arms it again with the new arguments;
    when it fires, [func] is called with the arguments of the call that
    armed it. *)
Module Debounce.
Section Debounce.
Context {A : Type}.
Variable wait : Z.

(** The closure's [timeout]: when it is due and the [args] it carries. *)
Definition state : Type := option (Time * A).

(** [executedFunction(...args)] called at [now]. *)
Definition executedFunction (args : A) (now : Time) (_ : state) : state :=
  Some (now + wait, args).

(** Time passes until [now]: a due timer runs [later], calling [func]. *)
Definition advance (now : Time) (s : state) : state * list A :=
  match s with
  | Some (due, args) => if decide (due <= now) then (None, [args]) else (s, [])
  | None => (None, [])
  end.

(** A burst of timed calls followed by silence until [stop]; the result
    lists the arguments [func] was called with. *)
Fixpoint calls (burst : list (Time * A)) (stop : Time) (s : state) : list A :=
  match burst with
  | [] => snd (advance stop s)
  | (t, args) :: rest =>
      let '(s1, out) := advance t s in
      out ++ calls rest stop (executedFunction args t s1)
  end.

(** The time and the arguments of the last call of a burst that follows
    a call made at [t] with [a]. *)
Fixpoint final (t : Time) (a : A) (burst : list (Time * A)) : Time * A :=
  match burst with
  | [] => (t, a)
  | (t', a') :: rest => final t' a' rest
  end.

(** Each call comes less than [wait] after the one before it. *)
Fixpoint within_window (prev : Time) (burst : list (Time * A)) : Prop :=
  match burst with
  | [] => True
  | (t, _) :: rest => prev <= t < prev + wait /\ within_window t rest
  end.
End Debounce.
End Debounce.

(** ** DocumentEditor *)
Module DocumentEditor.

(** What the continuation of an [await update(...)] still has to do. *)
Inductive Resume :=
| AfterSave (contentToSave : string)   (* saveDocument *)
| AfterTitle (newTitle : string).      (* updateTitle *)

#[global] Instance Resume_eq_dec : EqDecision Resume.
Proof. solve_decision. Defined.

(** One call [blink.db.documents.update(call_id, call_fields)] made at
    [call_start]. *)
Record Call := mkCall {
  call_id : string;
  call_fields : Fields;
  call_start : Time;
  call_resume : Resume
}.

#[global] Instance Call_eq_dec : EqDecision Call.
Proof. solve_decision. Defined.

(** The arrow function handed to [setTimeout] by [debouncedSave], with the
    variables it closes over: the [content] argument and the [document]
    and [saving] of the render that created this [debouncedSave] (and the
    [saveDocument] of that same render, which closes over the same two). *)
Record Timer := mkTimer {
  due : Time;
  t_content : string;
  t_document : option DocumentData;
  t_saving : bool
}.

#[global] Instance Timer_eq_dec : EqDecision Timer.
Proof. solve_decision. Defined.

Record State := mkState {
  (* props *)
  documentId : string;
  backs : nat;                       (* calls of onBack *)
  (* useState *)
  document : option DocumentData;
  loading : bool;
  saving : bool;
  (* the tiptap editor: what editor.getHTML() returns *)
  editorHTML : string;
  (* the event loop and the world around the component *)
  timers : list Timer;               (* armed, oldest first *)
  pending : list Call;               (* update calls not yet settled *)
  issued : list Call;                (* every update call made so far *)
  toasts : list Toast;
  db : gmap string DocumentData
}.

Definition setDocument (f : option DocumentData -> option DocumentData) (s : State) : State :=
  mkState (documentId s) (backs s) (f (document s)) (loading s) (saving s)
          (editorHTML s) (timers s) (pending s) (issued s) (toasts s) (db s).
Definition setLoading (b : bool) (s : State) : State :=
  mkState (documentId s) (backs s) (document s) b (saving s)
          (editorHTML s) (timers s) (pending s) (issued s) (toasts s) (db s).
Definition setSaving (b : bool) (s : State) : State :=
  mkState (documentId s) (backs s) (document s) (loading s) b
          (editorHTML s) (timers s) (pending s) (issued s) (toasts s) (db s).
Definition setContent (h : string) (s : State) : State :=
  mkState (documentId s) (backs s) (document s) (loading s) (saving s)
          h (timers s) (pending s) (issued s) (toasts s) (db s).
Definition set_timers (l : list Timer) (s : State) : State :=
  mkState (documentId s) (backs s) (document s) (loading s) (saving s)
          (editorHTML s) l (pending s) (issued s) (toasts s) (db s).
Definition set_pending (l : list Call) (s : State) : State :=
  mkState (documentId s) (backs s) (document s) (loading s) (saving s)
          (editorHTML s) (timers s) l (issued s) (toasts s) (db s).
Definition set_db (m : gmap string DocumentData) (s : State) : State :=
  mkState (documentId s) (backs s) (document s) (loading s) (saving s)
          (editorHTML s) (timers s) (pending s) (issued s) (toasts s) m.
Definition toast (t : Toast) (s : State) : State :=
  mkState (documentId s) (backs s) (document s) (loading s) (saving s)
          (editorHTML s) (timers s) (pending s) (issued s) (toasts s ++ [t]) (db s).
Definition onBack (s : State) : State :=
  mkState (documentId s) (S (backs s)) (document s) (loading s) (saving s)
          (editorHTML s) (timers s) (pending s) (issued s) (toasts s) (db s).

(** [await blink.db.documents.update(i, f)]: the call leaves, the handler
    is suspended until the call settles. *)
Definition update (c : Call) (s : State) : State :=
  mkState (documentId s) (backs s) (document s) (loading s) (saving s)
          (editorHTML s) (timers s) (pending s ++ [c]) (issued s ++ [c])
          (toasts s) (db s).

(** What [editor.getHTML()] returns for an editor without text: the editor
    always holds a paragraph, so an empty one is rendered as an empty
    paragraph and never as the empty string. *)
Definition emptyHTML : string := "<p></p>".

(** The component as it is mounted for document [i]: [useState(null)],
    [useState(true)], [useState(false)], editor created with [content: ''].
    The editor calls the [onUpdate] of the latest render. *)
Definition mount (i : string) (m : gmap string DocumentData) : State :=
  mkState i 0 None true false emptyHTML [] [] [] [] m.

(** useEffect(() => { if (document && editor && !editor.getHTML())
      editor.commands.setContent(document.content || '') }, [document, editor]) *)
Definition syncEditor (s : State) : State :=
  match document s with
  | Some d => if decide (editorHTML s = "")
              then setContent (or_empty (Some (content d))) s else s
  | None => s
  end.

(** *** loadDocument *)

(** [loadDocument] from the point where
    [await blink.db.documents.list({ where: { id: documentId }, limit: 1 })]
    settles; [None] stands for a rejected call. *)
Definition loadDocument_resume (res : option (list DocumentData)) (s : State) : State :=
  let s1 :=
    match res with
    | Some [] => onBack (toast (mkToast "Error" "Document not found" Destructive) s)
    | Some (d :: _) => syncEditor (setDocument (fun _ => Some d) s)
    | None => onBack (toast (mkToast "Error" "Failed to load document" Destructive) s)
    end in
  setLoading false s1.

(** *** saveDocument *)

(** [saveDocument(content)] up to its [await].  [doc] and [sav] are the
    [document] and [saving] this instance of the callback closes over. *)
Definition saveDocument (doc : option DocumentData) (sav : bool)
    (content : option string) (now : Time) (s : State) : State :=
  match doc with
  | None => s
  | Some d =>
      if sav then s
      else
        let contentToSave := or_empty content in
        update (mkCall (id d)
                       (mkFields None (Some contentToSave) (Some now))
                       now (AfterSave contentToSave))
               (setSaving true s)
  end.

(** [saveDocument] after its [await]: the rest of [try], or [catch], and
    then [finally].  The second [new Date()] is taken here, at [now]. *)
Definition saveDocument_resume (ok : bool) (contentToSave : string)
    (now : Time) (s : State) : State :=
  let s1 :=
    if ok then
      syncEditor
        (setDocument
           (fun prev =>
              match prev with
              | Some p => Some (patch (mkFields None (Some contentToSave) (Some now)) p)
              | None => None
              end) s)
    else toast (mkToast "Error" "Failed to save document" Destructive) s in
  setSaving false s1.

(** *** debouncedSave and the editor's onUpdate *)

(** [debouncedSave(content)]: one more [setTimeout(..., 1000)].  The
    function it returns, [() => clearTimeout(timeoutId)], is dropped by its
    only caller, so no timer is ever cleared. *)
Definition debouncedSave (content : string) (now : Time) (s : State) : State :=
  set_timers (timers s ++ [mkTimer (now + 1000) content (document s) (saving s)]) s.

(** The editor's content becomes [html] and [onUpdate] runs
    [debouncedSave(editor.getHTML())].  (The word count is display only.) *)
Definition onUpdate (html : string) (now : Time) (s : State) : State :=
  debouncedSave html now (setContent html s).

(** The body of the arrow function armed by [debouncedSave], run when the
    timer [tm] fires:  if (document && !saving) saveDocument(content). *)
Definition timeout (tm : Timer) (s : State) : State :=
  match t_document tm with
  | Some _ =>
      if negb (t_saving tm)
      then saveDocument (t_document tm) (t_saving tm) (Some (t_content tm)) (due tm) s
      else s
  | None => s
  end.

(** *** updateTitle *)

Definition updateTitle (newTitle : string) (now : Time) (s : State) : State :=
  match document s with
  | None => s
  | Some d =>
      update (mkCall (id d) (mkFields (Some newTitle) None (Some now))
                     now (AfterTitle newTitle)) s
  end.

Definition updateTitle_resume (ok : bool) (newTitle : string) (s : State) : State :=
  if ok then
    toast (mkToast "Success" "Document title updated" Default)
      (syncEditor
         (setDocument
            (fun prev =>
               match prev with
               | Some p => Some (patch (mkFields (Some newTitle) None None) p)
               | None => None
               end) s))
  else toast (mkToast "Error" "Failed to update title" Destructive) s.

(** *** The event loop *)

(** The [k]-th outstanding [update] call settles at [now].  A fulfilled
    call has changed the store; a rejected one has not. *)
Definition settle (k : nat) (ok : bool) (now : Time) (s : State) : State :=
  match pending s !! k with
  | None => s
  | Some c =>
      let s1 := set_pending (delete k (pending s)) s in
      let s2 := if ok then set_db (db_update (call_id c) (call_fields c) (db s1)) s1
                else s1 in
      match call_resume c with
      | AfterSave contentToSave => saveDocument_resume ok contentToSave now s2
      | AfterTitle newTitle => updateTitle_resume ok newTitle s2
      end
  end.

(** The callbacks of the timers [l] run one after the other. *)
Definition fire (l : list Timer) (s : State) : State :=
  fold_left (fun st tm => timeout tm st) l s.

(** Every timer due by [now] fires, oldest first, each at its own due time. *)
Definition run_timers (now : Time) (s : State) : State :=
  fire (filter (fun tm => due tm <= now) (timers s))
       (set_timers (filter (fun tm => ~ due tm <= now) (timers s)) s).

Inductive Event :=
| Loaded (ok : bool)             (* the list call of loadDocument settles *)
| Edit (html : string)           (* the user edits; the editor calls onUpdate *)
| Settle (k : nat) (ok : bool)   (* an update call settles *)
| Rename (newTitle : string)     (* DocumentHeader calls onTitleChange *)
| Wait.                          (* nothing but the clock *)

Definition handle (e : Event) (now : Time) (s : State) : State :=
  match e with
  | Loaded ok =>
      loadDocument_resume
        (if ok then Some (db_list_by_id (documentId s) (db s)) else None) s
  | Edit html => onUpdate html now s
  | Settle k ok => settle k ok now s
  | Rename newTitle => updateTitle newTitle now s
  | Wait => s
  end.

(** One entry of a timed trace: the timers that have come due run first. *)
Definition step (s : State) (te : Time * Event) : State :=
  handle (snd te) (fst te) (run_timers (fst te) s).

Definition run (trace : list (Time * Event)) (s : State) : State :=
  fold_left step trace s.

(** The [content] fields of a list of update calls, in order. *)
Definition contents (l : list Call) : list string :=
  omap (fun c => f_content (call_fields c)) l.

(** *** exportToDocx *)

(** [editor.getText()] is processed character by character, so here a
    string is the list of its UTF-16 code units. *)
Definition Text := list N.

Definition code_units (s : string) : Text :=
  map Ascii.N_of_ascii (String.list_ascii_of_string s).

Definition LF : N := 10%N.

(** ECMAScript WhiteSpace and LineTerminator, what [trim] strips. *)
Definition is_white_space (c : N) : bool :=
  bool_decide (c ∈ [9; 10; 11; 12; 13; 32; 160; 5760; 8232; 8233; 8239; 8287;
                    12288; 65279]%N)
  || ((8192 <=? c)%N && (c <=? 8202)%N).

(** [s.split(sep)] for a one-character separator. *)
Fixpoint split (sep : N) (s : Text) : list Text :=
  match s with
  | [] => [[]]
  | c :: rest =>
      if (c =? sep)%N then [] :: split sep rest
      else match split sep rest with
           | line :: lines => (c :: line) :: lines
           | [] => [[c]]
           end
  end.

Fixpoint trimStart (s : Text) : Text :=
  match s with
  | c :: rest => if is_white_space c then trimStart rest else s
  | [] => []
  end.

Definition trim (s : Text) : Text :=
  reverse (trimStart (reverse (trimStart s))).

(** A string used as a condition: the empty string is falsy. *)
Definition truthy (s : Text) : bool :=
  match s with [] => false | _ :: _ => true end.

Record TextRun := mkTextRun { run_text : Text }.
Record Paragraph := mkParagraph { children : list TextRun }.
(** [new Document({ sections: [{ properties: {}, children }] })] *)
Record Docx := mkDocx { sections : list (list Paragraph) }.

Definition exportToDocx_document (text : Text) : Docx :=
  let paragraphs :=
    map (fun t => mkParagraph [mkTextRun t])
        (List.filter (fun p => truthy (trim p)) (split LF text)) in
  mkDocx [ match paragraphs with
           | _ :: _ => paragraphs
           | [] => [mkParagraph [mkTextRun (code_units "Empty document")]]
           end ].

(** [exportToDocx]: [text] is [editor.getText()], [packed] tells whether
    [Packer.toBlob] and the download went through. *)
Definition exportToDocx (text : Text) (packed : bool) (s : State)
  : State * option Docx :=
  match document s with
  | None => (s, None)
  | Some _ =>
      let doc := exportToDocx_document text in
      if packed
      then (toast (mkToast "Success" "Document exported successfully" Default) s,
            Some doc)
      else (toast (mkToast "Error" "Failed to export document" Destructive) s,
            None)
  end.
End DocumentEditor.

(** ** DocumentList

    The component with the import button (the file also holds an earlier
    copy without it). *)
Module DocumentList.

(** [toLowerCase] on the letters A to Z.  No character outside ASCII
    lower-cases to one of [.], [d], [o], [c], [x], so the test for the
    [.docx] ending below is decided by these alone. *)
Definition lower_ascii (a : ascii) : ascii :=
  let n := Ascii.N_of_ascii a in
  if ((65 <=? n) && (n <=? 90))%N then Ascii.ascii_of_N (n + 32) else a.

Fixpoint toLowerCase (s : string) : string :=
  match s with
  | EmptyString => EmptyString
  | String a rest => String (lower_ascii a) (toLowerCase rest)
  end.

Definition endsWith (s suffix : string) : bool :=
  bool_decide (String.list_ascii_of_string suffix
                 `suffix_of` String.list_ascii_of_string s).

(** The first [n] characters of [s] are kept. *)
Definition keep (n : nat) (s : string) : string := String.substring 0 n s.

(** [name.replace(/\.docx?$/i, '')] *)
Definition strip_extension (name : string) : string :=
  let low := toLowerCase name in
  if endsWith low ".docx" then keep (String.length name - 5) name
  else if endsWith low ".doc" then keep (String.length name - 4) name
  else name.

(** The double quote character of the success message. *)
Definition quote : string := String (ascii_of_N 34) EmptyString.

(** [event.target.files?.[0]]: the name of the chosen file. *)
Record File := mkFile { name : string }.

(** What the awaited calls of one [handleFileImport] come back with. *)
Record Outcome := mkOutcome {
  (* file.arrayBuffer() and mammoth.convertToHtml: [value] and [messages],
     or [None] when either throws *)
  converted : option (string * list string);
  created : bool;                    (* blink.db.documents.create fulfilled *)
  list_failure : option string;      (* blink.db.documents.list: error message *)
  now : Time                         (* the clock reads of the create call *)
}.

Record State := mkState {
  user_id : string;                  (* props: user?.id, '' when missing *)
  selected : list string;            (* calls of onDocumentSelect *)
  documents : list DocumentData;
  loading : bool;
  importing : bool;
  toasts : list Toast;
  db : gmap string DocumentData
}.

Definition setDocuments (l : list DocumentData) (s : State) : State :=
  mkState (user_id s) (selected s) l (loading s) (importing s) (toasts s) (db s).
Definition setLoading (b : bool) (s : State) : State :=
  mkState (user_id s) (selected s) (documents s) b (importing s) (toasts s) (db s).
Definition setImporting (b : bool) (s : State) : State :=
  mkState (user_id s) (selected s) (documents s) (loading s) b (toasts s) (db s).
Definition toast (t : Toast) (s : State) : State :=
  mkState (user_id s) (selected s) (documents s) (loading s) (importing s)
          (toasts s ++ [t]) (db s).
Definition onDocumentSelect (i : string) (s : State) : State :=
  mkState (user_id s) (selected s ++ [i]) (documents s) (loading s) (importing s)
          (toasts s) (db s).
Definition create (d : DocumentData) (s : State) : State :=
  mkState (user_id s) (selected s) (documents s) (loading s) (importing s)
          (toasts s) (db_create d (db s)).

Definition newer_first (a b : DocumentData) : Prop :=
  updated_at b <= updated_at a.

#[global] Instance newer_first_dec : RelDecision newer_first.
Proof. intros a b. unfold newer_first. apply _. Defined.

(** Modelled from the spec: [list(filter, orderBy)] of the absent client,
    for [where: { owner_user_id }] and [orderBy: { updated_at: 'desc' }]. *)
Definition db_list_by_owner (u : string) (m : gmap string DocumentData)
  : list DocumentData :=
  merge_sort newer_first
             (filter (fun d => owner_user_id d = u) (snd <$> map_to_list m)).

Definition loadDocuments (failure : option string) (s : State) : State :=
  let s1 := setLoading true s in
  let s2 :=
    if decide (user_id s = "") then s1
    else match failure with
         | None => setDocuments (db_list_by_owner (user_id s) (db s1)) s1
         | Some message =>
             toast (mkToast "Error"
                      ("Failed to load documents: " +:+
                         (if decide (message = "") then "Unknown error" else message))
                      Destructive) s1
         end in
  setLoading false s2.

Definition handleFileImport (file : option File) (o : Outcome) (s : State) : State :=
  match file with
  | None => s
  | Some f =>
      if negb (endsWith (toLowerCase (name f)) ".docx") then
        toast (mkToast "Error" "Please select a valid DOCX file" Destructive) s
      else
        let s1 := setImporting true s in
        let failed :=
          toast (mkToast "Error" "Failed to import DOCX file. Please try again."
                         Destructive) s1 in
        let s2 :=
          match converted o with
          | None => failed
          | Some (value, _) =>
              let stripped := strip_extension (name f) in
              let title := if decide (stripped = "") then "Imported Document"
                           else stripped in
              if created o then
                let newDoc := mkDocument ("doc_" +:+ pretty (now o)) title value
                                         (user_id s) (now o) (now o) in
                toast (mkToast "Success"
                         (quote +:+ title +:+ quote +:+
                            " has been imported successfully")
                         Default)
                  (onDocumentSelect (id newDoc)
                     (loadDocuments (list_failure o) (create newDoc s1)))
              else failed
          end in
        setImporting false s2
  end.
End DocumentList.

(** ** Notions used to state the properties *)
Module Notions.
Import DocumentEditor.

(** The update call that [saveDocument] makes for [d] at [now]. *)
Definition save_call (d : DocumentData) (content : option string) (now : Time) : Call :=
  mkCall (id d) (mkFields None (Some (or_empty content)) (Some now)) now
         (AfterSave (or_empty content)).

(** [onUpdate] for each timed edit of a list, in order. *)
Definition type (edits : list (Time * string)) (s : State) : State :=
  fold_left (fun st e => onUpdate (snd e) (fst e) st) edits s.

(** The timer that an edit arms on a loaded document while [saving] is
    false. *)
Definition armed (d : DocumentData) (e : Time * string) : Timer :=
  mkTimer (fst e + 1000) (snd e) (Some d) false.

(** The outstanding update calls that carry content for document [i]. *)
Definition content_writes (i : string) (l : list Call) : list Call :=
  filter (fun c => call_id c = i /\ is_Some (f_content (call_fields c))) l.

(** At most one content write per document is outstanding. *)
Definition single_flight (s : State) : Prop :=
  forall i, (length (content_writes i (pending s)) <= 1)%nat.

(** The states an editor can be in: mounted on some store, then any trace. *)
Definition reachable (s : State) : Prop :=
  exists i m trace, s = run trace (mount i m).

Definition is_edit (e : Event) : bool :=
  match e with Edit _ => true | _ => false end.

Definition is_load (e : Event) : bool :=
  match e with Loaded _ => true | _ => false end.

(** The component without a document: nothing to write to, no call
    outstanding, and every armed timer has captured [document = null]. *)
Definition unloaded (s : State) : Prop :=
  document s = None /\ pending s = []
  /\ Forall (fun tm => t_document tm = None) (timers s).

(** A line with nothing but white space. *)
Definition blank (line : Text) : bool := forallb is_white_space line.

(** [lines.join(sep)] *)
Fixpoint join (sep : N) (lines : list Text) : Text :=
  match lines with
  | [] => []
  | [line] => line
  | line :: rest => line ++ sep :: join sep rest
  end.

End Notions.

(** ** Scenarios *)
Module Scenario.
Import DocumentEditor.

(** A document in the store and the editor opened on it. *)
Definition doc1 : DocumentData :=
  mkDocument "doc_1" "Untitled Document" "" "user_1" 0 0.

Definition opened : State :=
  run [(0, Loaded true)] (mount "doc_1" {[ "doc_1" := doc1 ]}).

(** A stored document with some text. *)
Definition doc2 : DocumentData :=
  mkDocument "doc_2" "Notes" "<p>hello</p>" "user_1" 0 50.

(** A state with a write outstanding: one edit, its timer fired. *)
Definition writing : State := run [(0, Edit "a"); (1000, Wait)] opened.

(** The list component of a signed-in user with an empty store. *)
Definition empty_list : DocumentList.State :=
  DocumentList.mkState "user_1" [] [] false false [] ∅.
End Scenario.

(** ** DocumentEditor: what the page shows *)
Module EditorView.
Import DocumentEditor.

(** [text.split(/\s+/)]: the text is cut at every maximal run of white
    space.  [gap] tells that the character before was white space, so that
    a run cuts once. *)
Fixpoint split_spaces (gap : bool) (s : Text) : list Text :=
  match s with
  | [] => [[]]
  | c :: rest =>
      if is_white_space c then
        if gap then split_spaces true rest else [] :: split_spaces true rest
      else
        match split_spaces false rest with
        | word :: words => (c :: word) :: words
        | [] => [[c]]
        end
  end.

(** The argument of [setWordCount] in [onUpdate]:
    text.split(/\s+/).filter(word => word.length > 0).length *)
Definition wordCount (text : Text) : nat :=
  length (List.filter (fun word => (0 <? length word)%nat) (split_spaces false text)).

(** The status bar: saving ? 'Saving...' : 'Saved' *)
Definition statusText (s : State) : string :=
  if saving s then "Saving..." else "Saved".
End EditorView.

(** ** DocumentHeader *)
Module DocumentHeader.
Import DocumentEditor.

(** [useState(false)] and [useState(document.title)]; titles are taken as
    their code units, as [trim] works on them. *)
Record HeaderState := mkHeader {
  editingTitle : bool;
  titleValue : Text
}.

(** [handleTitleSubmit]; [title] is [document.title] and the second
    component is the argument of [onTitleChange], when it is called. *)
Definition handleTitleSubmit (title : Text) (s : HeaderState) : HeaderState * option Text :=
  if truthy (trim (titleValue s)) && negb (bool_decide (titleValue s = title))
  then (mkHeader false (titleValue s), Some (trim (titleValue s)))
  else (mkHeader false title, None).

End DocumentHeader.

(** ** DocumentList: creating, searching and drawing the cards *)
Module ListView.
Import DocumentEditor DocumentList.

(** The id given to a new document: `doc_${Date.now()}` *)
Definition doc_id (now : Time) : string := "doc_" +:+ pretty now.

(** [createNewDocument]; [created] tells whether
    [blink.db.documents.create] was fulfilled, [now] is the clock. *)
Definition createNewDocument (created : bool) (now : Time)
    (s : DocumentList.State) : DocumentList.State :=
  if created then
    let newDoc := mkDocument (doc_id now) "Untitled Document" "" (user_id s) now now in
    DocumentList.toast (mkToast "Success" "New document created" Default)
      (onDocumentSelect (id newDoc) (create newDoc s))
  else
    DocumentList.toast (mkToast "Error" "Failed to create document" Destructive) s.

(** [s.startsWith(sub)] *)
Fixpoint startsWith (s sub : string) : bool :=
  match sub, s with
  | EmptyString, _ => true
  | String a sub', String b s' => bool_decide (a = b) && startsWith s' sub'
  | String _ _, EmptyString => false
  end.

(** [s.includes(sub)] *)
Fixpoint includes (s sub : string) : bool :=
  startsWith s sub
  || match s with
     | EmptyString => false
     | String _ s' => includes s' sub
     end.

Section Search.
(** [String.prototype.toLowerCase], whatever it does outside ASCII. *)
Variable lower : string -> string.

(** [filteredDocuments], for the [searchTerm] of the search box. *)
Definition filteredDocuments (searchTerm : string) (documents : list DocumentData)
  : list DocumentData :=
  List.filter
    (fun doc => includes (lower (title doc)) (lower searchTerm)
                || includes (lower (content doc)) (lower searchTerm))
    documents.
End Search.

(** What [formatDate] returns: 'Today', 'Yesterday', `${n} days ago`, or
    [date.toLocaleDateString()]. *)
Inductive DateLabel :=
| Today
| Yesterday
| DaysAgo (diffDays : Z)
| LocaleDate (date : Time).

Definition formatDate (date now : Time) : DateLabel :=
  let diffTime := Z.abs (now - date) in
  let diffDays := diffTime / (1000 * 60 * 60 * 24) in
  if (diffDays =? 0)%Z then Today
  else if (diffDays =? 1)%Z then Yesterday
  else if (diffDays <? 7)%Z then DaysAgo diffDays
  else LocaleDate date.

Definition LT : N := 60%N.
Definition GT : N := 62%N.

(** [s.replace(/<[^>]*>/g, '')].  A match starts at a [<] that has a [>]
    somewhere after it and ends at the first such [>]; [inside] tells that
    a match is being skipped. *)
Fixpoint strip_tags (inside : bool) (s : Text) : Text :=
  match s with
  | [] => []
  | c :: rest =>
      if inside then
        if (c =? GT)%N then strip_tags false rest else strip_tags true rest
      else if (c =? LT)%N && existsb (N.eqb GT) rest then strip_tags true rest
      else c :: strip_tags false rest
  end.

(** The text of a card:
    doc.content ? doc.content.replace(/<[^>]*>/g, '').substring(0, 100) + '...'
                : 'Empty document' *)
Definition preview (content : Text) : Text :=
  if truthy content
  then take 100 (strip_tags false content) ++ code_units "..."
  else code_units "Empty document".

(** doc.owner_user_id === user.id ? 'You' : 'Shared' *)
Definition ownerLabel (user : string) (doc : DocumentData) : string :=
  if bool_decide (owner_user_id doc = user) then "You" else "Shared".
End ListView.

(** ** App *)
Module App.

(** [useState(null)], [useState(true)], [useState(null)]; a user is known
    by its id. *)
Record AppState := mkApp {
  user : option string;
  loading : bool;
  currentDocumentId : option string
}.

Definition initial : AppState := mkApp None true None.

Inductive AppEvent :=
| AuthStateChanged (user : option string) (isLoading : bool)
| DocumentSelect (documentId : string)   (* DocumentList calls onDocumentSelect *)
| Back.                                   (* DocumentEditor calls onBack *)

Definition app_handle (s : AppState) (e : AppEvent) : AppState :=
  match e with
  | AuthStateChanged u l => mkApp u l (currentDocumentId s)
  | DocumentSelect i => mkApp (user s) (loading s) (Some i)
  | Back => mkApp (user s) (loading s) None
  end.

Definition app_run (events : list AppEvent) (s : AppState) : AppState :=
  fold_left app_handle events s.

Inductive View :=
| Spinner
| SignIn
| Editor (documentId user : string)
| List (user : string).

(** What [App] returns: the spinner while loading, the sign-in page
    without a user, then the editor when [currentDocumentId] is truthy and
    the list otherwise. *)
Definition render (s : AppState) : View :=
  if loading s then Spinner
  else match user s with
       | None => SignIn
       | Some u =>
           match currentDocumentId s with
           | Some i => if decide (i = "") then List u else Editor i u
           | None => List u
           end
       end.
End App.

(** ** More notions *)
Module Notions2.
Import DocumentEditor Notions.

(** The texts of the paragraphs of an exported document, in order. *)
Definition paragraph_texts (d : Docx) : list Text :=
  map (fun p => concat (map run_text (children p))) (concat (sections d)).

(** The first and the last character are not white space. *)
Definition trimmed (s : Text) : Prop :=
  (forall c r, s = c :: r -> is_white_space c = false)
  /\ (forall c r, s = r ++ [c] -> is_white_space c = false).

Definition day : Z := 1000 * 60 * 60 * 24.

(** The HTML of the last edit of a trace, or [start] when it has none. *)
Definition last_html (trace : list (Time * DocumentEditor.Event)) (start : string)
  : string :=
  fold_left (fun html te =>
               match snd te with
               | DocumentEditor.Edit h => h
               | _ => html
               end) trace start.

(** An event the editor can produce: an edit never reports the empty
    string. *)
Definition editor_event (e : DocumentEditor.Event) : Prop :=
  match e with
  | DocumentEditor.Edit h => h <> ""
  | _ => True
  end.

(** [t] occurs in [s]. *)
Definition contains (s t : string) : Prop :=
  exists front back, s = front +:+ t +:+ back.

(** No [<] of [s] has a [>] after it: the pattern of a tag finds nothing. *)
Definition tag_free (s : Text) : Prop :=
  forall a b, s = a ++ ListView.LT :: b -> ListView.GT ∉ b.

Definition is_auth (e : App.AppEvent) : Prop :=
  match e with App.AuthStateChanged _ _ => True | _ => False end.

(** The notifications of a successful import and of a failed listing. *)
Definition imported_toast (title : string) : Toast :=
  mkToast "Success"
    (DocumentList.quote +:+ title +:+ DocumentList.quote +:+
       " has been imported successfully") Default.

Definition list_failed_toast (message : string) : Toast :=
  mkToast "Error"
    ("Failed to load documents: " +:+
       (if decide (message = "") then "Unknown error" else message))
    Destructive.

(** Some content write is among the calls [l]. *)
Definition has_save (l : list DocumentEditor.Call) : Prop :=
  exists c cs, c ∈ l /\ DocumentEditor.call_resume c = DocumentEditor.AfterSave cs.

(** [saving] is up only while some content write is outstanding. *)
Definition saving_backed (s : DocumentEditor.State) : Prop :=
  DocumentEditor.saving s = true -> has_save (DocumentEditor.pending s).

(** The update call that [updateTitle] makes for [d] at [now]. *)
Definition title_call (d : DocumentData) (newTitle : string) (now : Time) : Call :=
  mkCall (id d) (mkFields (Some newTitle) None (Some now)) now (AfterTitle newTitle).

(** How many of the pieces of a split are not empty. *)
Definition counted (pieces : list Text) : nat :=
  length (List.filter (fun w => (0 <? length w)%nat) pieces).

(** A word: not empty and without white space. *)
Definition word (w : Text) : Prop :=
  w <> [] /\ forallb (fun c => negb (is_white_space c)) w = true.

(** The time of the event that follows the head of [burst]: the next
    call, or [stop] after the last one. *)
Definition next_time {A} (burst : list (Time * A)) (stop : Time) : Time :=
  match burst with
  | [] => stop
  | (t, _) :: _ => t
  end.

(** The arguments of the calls of [burst] that are followed by at least
    [wait] of silence. *)
Fixpoint quiet_after {A} (wait : Z) (burst : list (Time * A)) (stop : Time) : list A :=
  match burst with
  | [] => []
  | (t, a) :: rest =>
      (if decide (t + wait <= next_time rest stop) then [a] else [])
        ++ quiet_after wait rest stop
  end.
End Notions2.

(** * Properties *)

(** ** The [debounce] utility coalesces a burst *)
Module DebounceFacts.
Import Debounce.
Section DebounceFacts.
Context {A : Type}.
Variable wait : Z.

Lemma calls_armed (burst : list (Time * A)) (t : Time) (a : A) (stop : Time) :
  within_window wait t burst ->
  fst (final t a burst) + wait <= stop ->
  calls wait burst stop (Some (t + wait, a)) = [snd (final t a burst)].
Proof.
  revert t a. induction burst as [|[t' a'] rest IH]; intros t a Hw Hstop; simpl in *.
  - rewrite decide_True by lia. reflexivity.
  - destruct Hw as [Ht Hw]. rewrite decide_False by lia. simpl.
    unfold executedFunction. apply IH; assumption.
Qed.

(** Calls that each come less than [wait] after the previous one lead to
    one call of [func], with the arguments of the last of them. *)
Lemma debounce_coalesces (t : Time) (a : A) (burst : list (Time * A)) (stop : Time) :
  within_window wait t burst ->
  fst (final t a burst) + wait <= stop ->
  calls wait ((t, a) :: burst) stop None = [snd (final t a burst)].
Proof.
  intros Hw Hstop. simpl. unfold executedFunction. apply calls_armed; assumption.
Qed.
End DebounceFacts.
End DebounceFacts.

(** ** Lists *)
Section Lists.
Context {A : Type} (P : A -> Prop) `{!forall x, Decision (P x)}.

Lemma filter_all (l : list A) : Forall P l -> filter P l = l.
Proof.
  induction 1 as [|x l Hx _ IH]; [done|].
  by rewrite filter_cons_True, IH.
Qed.

Lemma filter_none (l : list A) : Forall (fun x => ~ P x) l -> filter P l = [].
Proof.
  induction 1 as [|x l Hx _ IH]; [done|].
  by rewrite filter_cons_False.
Qed.
End Lists.

(** ** Facts about the editor's handlers *)
Module EditorFacts.
Import DocumentEditor Notions.

Lemma saveDocument_issued d content now s :
  issued (saveDocument (Some d) false content now s)
  = issued s ++ [save_call d content now].
Proof. reflexivity. Qed.

Lemma saveDocument_pending d content now s :
  pending (saveDocument (Some d) false content now s)
  = pending s ++ [save_call d content now].
Proof. reflexivity. Qed.


Lemma timeout_no_document tm s : t_document tm = None -> timeout tm s = s.
Proof. intros H. unfold timeout. by rewrite H. Qed.

(** A timer armed with a document and [saving] false writes when it
    fires, whatever the state is by then. *)
Lemma timeout_writes tm d s :
  t_document tm = Some d -> t_saving tm = false ->
  timeout tm s = saveDocument (Some d) false (Some (t_content tm)) (due tm) s.
Proof. intros Hd Hs. unfold timeout. by rewrite Hd, Hs. Qed.

Lemma timeout_timers tm s : timers (timeout tm s) = timers s.
Proof.
  unfold timeout, saveDocument.
  destruct (t_document tm); [|done]. by destruct (t_saving tm).
Qed.

Lemma timeout_document tm s : document (timeout tm s) = document s.
Proof.
  unfold timeout, saveDocument.
  destruct (t_document tm); [|done]. by destruct (t_saving tm).
Qed.

Lemma fire_timers l s : timers (fire l s) = timers s.
Proof.
  revert s. induction l as [|tm l IH]; intros s; simpl; [done|].
  unfold fire in IH. by rewrite IH, timeout_timers.
Qed.

Lemma fire_document l s : document (fire l s) = document s.
Proof.
  revert s. induction l as [|tm l IH]; intros s; simpl; [done|].
  unfold fire in IH. by rewrite IH, timeout_document.
Qed.

Lemma run_timers_timers now s :
  timers (run_timers now s) = filter (fun tm => ~ due tm <= now) (timers s).
Proof. unfold run_timers. by rewrite fire_timers. Qed.

Lemma run_timers_document now s : document (run_timers now s) = document s.
Proof. unfold run_timers. by rewrite fire_document. Qed.

(** The youngest timer, when it is due, fires after all the others. *)
Lemma run_timers_last now s older tm :
  timers s = older ++ [tm] -> due tm <= now ->
  run_timers now s = timeout tm (run_timers now (set_timers older s)).
Proof.
  intros Ht Hdue. unfold run_timers. rewrite Ht. simpl.
  rewrite !filter_app, !filter_cons_True, filter_cons_False, !filter_nil by (simpl; lia).
  rewrite app_nil_r. unfold fire. rewrite fold_left_app. reflexivity.
Qed.

(** Until the youngest timer is due it stays the youngest. *)
Lemma run_timers_waiting now s older tm :
  timers s = older ++ [tm] -> ~ due tm <= now ->
  timers (run_timers now s)
  = filter (fun x => ~ due x <= now) older ++ [tm].
Proof.
  intros Ht Hdue. rewrite run_timers_timers, Ht.
  rewrite filter_app, filter_cons_True, filter_nil by done. reflexivity.
Qed.
(** *** Settling a call *)

(** Case analysis on what a resumed handler does. *)
Ltac resumed :=
  unfold loadDocument_resume, saveDocument_resume, updateTitle_resume,
    updateTitle, syncEditor;
  simpl; repeat (case_match; simpl; try done); try done.

Lemma or_empty_Some (x : string) : or_empty (Some x) = x.
Proof. unfold or_empty. by case_decide. Qed.

Lemma saveDocument_sends d html now s :
  saveDocument (Some d) false (Some html) now s
  = update (mkCall (id d) (mkFields None (Some html) (Some now)) now
                   (AfterSave html))
           (setSaving true s).
Proof. unfold saveDocument. by rewrite or_empty_Some. Qed.

(** A call that settles never issues a call nor arms a timer. *)
Lemma settle_issued k ok now s : issued (settle k ok now s) = issued s.
Proof.
  unfold settle. destruct (pending s !! k) as [c|]; [|done].
  destruct (call_resume c), ok; resumed.
Qed.

Lemma settle_timers k ok now s : timers (settle k ok now s) = timers s.
Proof.
  unfold settle. destruct (pending s !! k) as [c|]; [|done].
  destruct (call_resume c), ok; resumed.
Qed.

(** A fulfilled call has changed the store as the call says. *)
Lemma settle_db k c now s :
  pending s !! k = Some c ->
  db (settle k true now s) = db_update (call_id c) (call_fields c) (db s).
Proof.
  intros Hk. unfold settle. rewrite Hk. destruct (call_resume c); resumed.
Qed.

Lemma settle_pending_of k c ok now s :
  pending s !! k = Some c -> pending (settle k ok now s) = delete k (pending s).
Proof.
  intros Hk. unfold settle. rewrite Hk. destruct (call_resume c), ok; resumed.
Qed.

Lemma settle_saving_of k c cs ok now s :
  pending s !! k = Some c -> call_resume c = AfterSave cs ->
  saving (settle k ok now s) = false.
Proof. intros Hk Hr. unfold settle. rewrite Hk, Hr. reflexivity. Qed.


(** A fulfilled content write has put the content and the time at which
    the write began into the store's record, and nothing else; the other
    records are as they were. *)
Lemma save_settled_store s k d content t0 now r :
  pending s !! k = Some (save_call d content t0) ->
  db s !! id d = Some r ->
  db (settle k true now s) !! id d
  = Some (mkDocument (id r) (title r) (or_empty content) (owner_user_id r)
                     (created_at r) t0)
  /\ forall j, j <> id d -> db (settle k true now s) !! j = db s !! j.
Proof.
  intros Hk Hr. rewrite (settle_db k _ now s Hk). simpl. unfold db_update. split.
  - by rewrite lookup_alter_eq, Hr.
  - intros j Hj. by rewrite lookup_alter_ne.
Qed.

(** The component's own copy takes the content, and as [updated_at] the
    time at which the call settled. *)
Lemma save_settled_document s k d content t0 now p :
  pending s !! k = Some (save_call d content t0) ->
  document s = Some p ->
  document (settle k true now s)
  = Some (mkDocument (id p) (title p) (or_empty content) (owner_user_id p)
                     (created_at p) now).
Proof.
  intros Hk Hp. unfold settle. rewrite Hk. simpl.
  unfold saveDocument_resume, syncEditor. simpl. rewrite Hp. simpl.
  destruct (decide (editorHTML s = "")); simpl; by rewrite Hp.
Qed.

(** *** Traces without edits *)

Lemma handle_timers e now s : is_edit e = false -> timers (handle e now s) = timers s.
Proof.
  destruct e as [ok|html|k ok|newTitle|]; intros He; simpl; try done.
  - destruct ok; resumed.
  - apply settle_timers.
  - resumed.
Qed.

(** While no edit is made, the timer armed last stays the last. *)
Lemma quiet_keeps_last tm quiet s older :
  Forall (fun te => fst te < due tm /\ is_edit (snd te) = false) quiet ->
  timers s = older ++ [tm] ->
  exists older', timers (run quiet s) = older' ++ [tm].
Proof.
  revert s older. induction quiet as [|[u e] quiet IH]; intros s older Hq Ht; simpl.
  - by exists older.
  - apply Forall_cons in Hq as [[Hu He] Hq]. simpl in Hu, He.
    eapply (IH _ _ Hq). unfold step. simpl.
    rewrite handle_timers by done.
    apply run_timers_waiting; [exact Ht | lia].
Qed.

Lemma run_timers_idle now s : timers s = [] -> run_timers now s = s.
Proof. destruct s. simpl. intros ->. reflexivity. Qed.

(** With no timer armed, time alone changes nothing. *)
Lemma run_waits_idle ws s :
  timers s = [] -> Forall (fun te => snd te = Wait) ws -> run ws s = s.
Proof.
  intros Ht Hw. induction Hw as [|[u e] ws He _ IH]; [done|].
  simpl in He. subst e. simpl. unfold step. simpl.
  by rewrite (run_timers_idle u s Ht).
Qed.

Lemma run_app_wait trace now s :
  run (trace ++ [(now, Wait)]) s = run_timers now (run trace s).
Proof. unfold run. by rewrite fold_left_app. Qed.

(** An edit made on a loaded document while [saving] is false, followed by
    no other edit: the write that begins when its timer is due carries its
    content and is the last call made. *)
Lemma last_edit_flushed s d html t quiet now :
  document s = Some d -> saving s = false ->
  Forall (fun te => fst te < t + 1000 /\ is_edit (snd te) = false) quiet ->
  t + 1000 <= now ->
  let s' := run (quiet ++ [(now, Wait)]) (onUpdate html t s) in
  last (issued s') = Some (save_call d (Some html) (t + 1000))
  /\ last (pending s') = Some (save_call d (Some html) (t + 1000)).
Proof.
  intros Hd Hs Hq Hnow s'. subst s'.
  set (tm := mkTimer (t + 1000) html (Some d) false).
  destruct (quiet_keeps_last tm quiet (onUpdate html t s) (timers s)) as [older Ht].
  { exact Hq. }
  { unfold onUpdate, debouncedSave. simpl. by rewrite Hd, Hs. }
  rewrite (run_app_wait quiet now).
  rewrite (run_timers_last now _ older tm Ht) by (simpl; lia).
  rewrite (timeout_writes tm d) by done.
  rewrite saveDocument_issued, saveDocument_pending. split; apply last_snoc.
Qed.
End EditorFacts.

(** ** The autosave path: [onUpdate], [debouncedSave], [saveDocument] *)
Module Autosave.
Import DocumentEditor Notions Scenario EditorFacts.

Lemma opened_ready :
  document opened = Some doc1 /\ saving opened = false /\ loading opened = false
  /\ timers opened = [] /\ pending opened = [] /\ issued opened = [].
Proof. by vm_compute. Qed.

(** *** One timer per edit *)

Lemma type_timers edits s d :
  document s = Some d -> saving s = false ->
  timers (type edits s) = timers s ++ map (armed d) edits
  /\ document (type edits s) = Some d /\ saving (type edits s) = false
  /\ issued (type edits s) = issued s.
Proof.
  revert s. induction edits as [|e edits IH]; intros s Hd Hs; simpl.
  - by rewrite app_nil_r.
  - destruct (IH (onUpdate (snd e) (fst e) s)) as (Ht & Hd' & Hs' & Hi); [done..|].
    unfold type in *. rewrite Ht, Hd', Hs', Hi. simpl.
    rewrite Hd, Hs, <- app_assoc. done.
Qed.

Lemma fire_armed d edits s :
  issued (fire (map (armed d) edits) s)
  = issued s ++ map (fun e => save_call d (Some (snd e)) (fst e + 1000)) edits.
Proof.
  revert s. induction edits as [|e edits IH]; intros s; simpl.
  - by rewrite app_nil_r.
  - unfold fire in *. simpl. rewrite IH. simpl. by rewrite <- app_assoc.
Qed.

(** Nothing joins the edits of a burst: once their timers have run, every
    edit made with a loaded document while [saving] was false has led to a
    write of its own. *)
Lemma edits_all_written s d edits now :
  document s = Some d -> saving s = false -> timers s = [] ->
  Forall (fun e => fst e + 1000 <= now) edits ->
  issued (run_timers now (type edits s))
  = issued s ++ map (fun e => save_call d (Some (snd e)) (fst e + 1000)) edits.
Proof.
  intros Hd Hs Ht Hdue.
  destruct (type_timers edits s d Hd Hs) as (Htm & _ & _ & Hi).
  unfold run_timers. rewrite Htm, Ht. simpl.
  assert (Hall : Forall (fun tm => due tm <= now) (map (armed d) edits)).
  { rewrite Forall_map. eapply Forall_impl; [exact Hdue|]. by intros e He. }
  rewrite filter_all by exact Hall.
  rewrite fire_armed. simpl. by rewrite Hi.
Qed.

(** C1, on the code.  Two edits 500 ms apart, the second made before the
    timer of the first has fired, each write settled before the next timer
    fires: the store is written twice, first with the content of the first
    edit.  [debouncedSave] stacks a timer per edit and clears none. *)
Theorem debouncedSave_two_edits_two_writes :
  let final :=
    run [(100, Edit "a"); (600, Edit "ab"); (1150, Settle 0 true);
         (1650, Settle 0 true); (3000, Wait)] opened in
  contents (issued final) = ["a"; "ab"]
  /\ map call_start (issued final) = [1100; 1600]
  /\ pending final = [] /\ timers final = [].
Proof. by vm_compute. Qed.

(** *** Writes in flight *)

(** C2, on the code.  Two edits 100 ms apart and a store that takes longer
    than that to answer: at 1100 ms two content writes for the same
    document are outstanding.  The second timer tests the [saving] of the
    render in which its edit was made. *)
Theorem two_writes_in_flight :
  let s := run [(0, Loaded true); (0, Edit "a"); (100, Edit "ab"); (1100, Wait)]
               (mount "doc_1" {[ "doc_1" := doc1 ]}) in
  reachable s
  /\ pending s = [save_call doc1 (Some "a") 1000; save_call doc1 (Some "ab") 1100]
  /\ saving s = true
  /\ ~ single_flight s.
Proof.
  split; [by eexists _, _, _|]. split; [by vm_compute|]. split; [by vm_compute|].
  intros Hone. specialize (Hone "doc_1"). vm_compute in Hone. lia.
Qed.

(** *** An edit made during a write *)




(** *** A write that fails *)




(** *** After the last edit *)

(** C5 fails on the code.  Two edits are made while the first write,
    which takes two seconds, is outstanding; their timers fire before it
    resolves.  Long after the last edit, with no timer armed and no call
    outstanding, the only write that completed carried the first content
    and the store still holds it. *)
Lemma store_behind_last_edit :
  let final :=
    run [(0, Edit "a"); (1400, Edit "ab"); (1450, Edit "abc");
         (3000, Settle 0 true); (10000, Wait)] opened in
  editorHTML final = "abc"
  /\ timers final = [] /\ pending final = []
  /\ contents (issued final) = ["a"]
  /\ content <$> db final !! "doc_1" = Some "a".
Proof. by vm_compute. Qed.

(** C5 as the code has it.  The last edit is made on a loaded document
    while [saving] is false, and no edit follows.  If, when its timer is
    due 1000 ms later, it is the only timer armed and no call is
    outstanding, then exactly one write begins at that moment, carrying
    the content of that edit; and once the store has fulfilled it, no
    timer is armed, no call is outstanding, no further call has been made
    and the store's record holds that content.  The component then stays
    as it is for as long as nothing but time passes. *)
Theorem last_edit_written_when_idle s d html t quiet now later :
  document s = Some d -> saving s = false ->
  Forall (fun te => fst te < t + 1000 /\ is_edit (snd te) = false) quiet ->
  t + 1000 <= now ->
  let s1 := run quiet (onUpdate html t s) in
  let c := mkCall (id d) (mkFields None (Some html) (Some (t + 1000)))
                  (t + 1000) (AfterSave html) in
  length (timers s1) = 1%nat -> pending s1 = [] ->
  let s2 := run [(now, Wait)] s1 in
  let s3 := settle 0 true later s2 in
  issued s2 = issued s1 ++ [c] /\ pending s2 = [c] /\ timers s2 = []
  /\ issued s3 = issued s2 /\ pending s3 = [] /\ timers s3 = []
  /\ saving s3 = false
  /\ content <$> db s3 !! id d = (fun _ => html) <$> db s1 !! id d
  /\ forall ws, Forall (fun te => snd te = Wait) ws -> run ws s3 = s3.
Proof.
  intros Hd Hs Hq Hnow s1 c Hone Hpend s2 s3.
  set (tm := mkTimer (t + 1000) html (Some d) false).
  destruct (quiet_keeps_last tm quiet (onUpdate html t s) (timers s)) as [older Ht].
  { exact Hq. }
  { unfold onUpdate, debouncedSave. simpl. by rewrite Hd, Hs. }
  fold s1 in Ht. rewrite Ht, length_app in Hone. simpl in Hone.
  destruct older as [|x older]; [|simpl in Hone; lia]. simpl in Ht.
  assert (Hs2 : s2 = update c (setSaving true (set_timers [] s1))).
  { subst s2. change (run [(now, Wait)] s1) with (run_timers now s1).
    rewrite (run_timers_last now s1 [] tm Ht) by (simpl; lia).
    rewrite (timeout_writes tm d) by done.
    by rewrite saveDocument_sends. }
  assert (Hk : pending s2 !! 0%nat = Some c).
  { rewrite Hs2. simpl. by rewrite Hpend. }
  assert (Hdb : db s2 = db s1) by (by rewrite Hs2).
  split; [by rewrite Hs2|]. split; [by rewrite Hs2; simpl; rewrite Hpend|].
  split; [by rewrite Hs2|]. subst s3.
  split; [apply settle_issued|].
  split; [by rewrite (settle_pending_of 0 c true later s2 Hk), Hs2; simpl; rewrite Hpend|].
  split; [by rewrite settle_timers, Hs2|].
  split; [by apply (settle_saving_of 0 c html true later s2 Hk)|].
  split.
  - rewrite (settle_db 0 c later s2 Hk), Hdb. simpl.
    unfold db_update. rewrite lookup_alter_eq. by destruct (db s1 !! id d).
  - intros ws Hw. apply run_waits_idle; [|done].
    by rewrite settle_timers, Hs2.
Qed.

Lemma last_edit_written_when_idle_witness :
  let s1 := run [(1200, Wait)] (onUpdate "ab" 600 opened) in
  let c := mkCall (id doc1) (mkFields None (Some "ab") (Some (600 + 1000)))
                  (600 + 1000) (AfterSave "ab") in
  let s2 := run [(1700, Wait)] s1 in
  let s3 := settle 0 true 1800 s2 in
  issued s2 = issued s1 ++ [c] /\ pending s2 = [c] /\ timers s2 = []
  /\ issued s3 = issued s2 /\ pending s3 = [] /\ timers s3 = []
  /\ saving s3 = false
  /\ content <$> db s3 !! id doc1 = (fun _ => "ab") <$> db s1 !! id doc1
  /\ forall ws, Forall (fun te => snd te = Wait) ws -> run ws s3 = s3.
Proof.
  apply (last_edit_written_when_idle opened doc1 "ab" 600 [(1200, Wait)] 1700 1800).
  - by vm_compute.
  - by vm_compute.
  - repeat constructor; simpl; lia.
  - lia.
  - by vm_compute.
  - by vm_compute.
Defined.

(** *** What a write sends *)

(** C8, on the code.  Two edits 500 ms apart: the write that begins at
    1000 ms sends the content of the first edit, while the editor has held
    the content of the second one for half a second.  The content sent is
    the one captured when the timer was armed, not the latest one when
    the write begins. *)
Theorem write_sends_content_of_its_own_edit :
  let s := run [(0, Edit "a"); (500, Edit "ab"); (1000, Wait)] opened in
  pending s = [save_call doc1 (Some "a") 1000]
  /\ map call_start (pending s) = [1000]
  /\ contents (pending s) = ["a"]
  /\ editorHTML s = "ab".
Proof. by vm_compute. Qed.

(** *** Empty content *)

(** C9.  [saveDocument] called without content or with the empty string
    makes the update call with [content: '']; an edit that empties the
    editor, made on a loaded document while [saving] is false, is flushed
    1000 ms later by such a call; and once that call is fulfilled the
    store's record has the empty content. *)
Theorem empty_content_is_written s d t :
  document s = Some d -> saving s = false ->
  let c := mkCall (id d) (mkFields None (Some "") (Some (t + 1000))) (t + 1000)
                  (AfterSave "") in
  let flushed := run [(t + 1000, Wait)] (onUpdate "" t s) in
  issued (saveDocument (Some d) false None (t + 1000) s) = issued s ++ [c]
  /\ issued (saveDocument (Some d) false (Some "") (t + 1000) s) = issued s ++ [c]
  /\ last (issued flushed) = Some c /\ last (pending flushed) = Some c
  /\ forall s2 k now,
       pending s2 !! k = Some c ->
       content <$> db (settle k true now s2) !! id d
       = (fun _ => "") <$> db s2 !! id d.
Proof.
  intros Hd Hs c flushed. split; [done|]. split; [done|].
  destruct (last_edit_flushed s d "" t [] (t + 1000) Hd Hs) as [Hi Hp];
    [constructor | lia |].
  split; [exact Hi|]. split; [exact Hp|].
  intros s2 k now Hk. rewrite (settle_db k c now s2 Hk). simpl.
  unfold db_update. rewrite lookup_alter_eq. by destruct (db s2 !! id d).
Qed.

Lemma empty_content_is_written_witness :
  let c := mkCall (id doc1) (mkFields None (Some "") (Some (2000 + 1000)))
                  (2000 + 1000) (AfterSave "") in
  let flushed := run [(2000 + 1000, Wait)] (onUpdate "" 2000 opened) in
  issued (saveDocument (Some doc1) false None (2000 + 1000) opened)
  = issued opened ++ [c]
  /\ issued (saveDocument (Some doc1) false (Some "") (2000 + 1000) opened)
     = issued opened ++ [c]
  /\ last (issued flushed) = Some c /\ last (pending flushed) = Some c
  /\ forall s2 k now,
       pending s2 !! k = Some c ->
       content <$> db (settle k true now s2) !! id doc1
       = (fun _ => "") <$> db s2 !! id doc1.
Proof.
  apply (empty_content_is_written opened doc1 2000); by vm_compute.
Defined.
End Autosave.

(** ** Opening a document: [loadDocument] *)
Module Session.
Import DocumentEditor Notions EditorFacts.

Lemma fire_unloaded l s : Forall (fun tm => t_document tm = None) l -> fire l s = s.
Proof.
  induction 1 as [|tm l Htm _ IH]; [done|].
  unfold fire in *. simpl. by rewrite timeout_no_document.
Qed.

Lemma run_timers_unloaded now s :
  unloaded s ->
  run_timers now s = set_timers (filter (fun tm => ~ due tm <= now) (timers s)) s.
Proof.
  intros (_ & _ & Ht). unfold run_timers. apply fire_unloaded.
  apply Forall_forall. intros tm Hin. apply list_elem_of_filter in Hin as [_ Hin].
  by eapply Forall_forall in Ht.
Qed.

(** Without a document no event other than a load changes anything but
    the editor's content and the armed timers. *)
Lemma step_unloaded s u e :
  unloaded s -> is_load e = false ->
  unloaded (step s (u, e))
  /\ issued (step s (u, e)) = issued s /\ toasts (step s (u, e)) = toasts s
  /\ backs (step s (u, e)) = backs s /\ db (step s (u, e)) = db s.
Proof.
  intros Hu He. unfold step. simpl. rewrite (run_timers_unloaded u s Hu).
  destruct Hu as (Hd & Hp & Ht).
  assert (Hkeep : Forall (fun tm => t_document tm = None)
                         (filter (fun tm => ~ due tm <= u) (timers s))).
  { apply Forall_forall. intros tm Hin. apply list_elem_of_filter in Hin as [_ Hin].
    by eapply Forall_forall in Ht. }
  destruct e as [ok|html|k ok|newTitle|]; try discriminate; simpl.
  - unfold unloaded, onUpdate, debouncedSave. simpl. repeat split; try done.
    apply Forall_app. split; [done|]. by repeat constructor.
  - unfold settle. simpl. rewrite Hp. simpl. by repeat split.
  - unfold updateTitle. simpl. rewrite Hd. by repeat split.
  - by repeat split.
Qed.

Lemma run_unloaded trace s :
  unloaded s -> Forall (fun te => is_load (snd te) = false) trace ->
  unloaded (run trace s)
  /\ issued (run trace s) = issued s /\ toasts (run trace s) = toasts s
  /\ backs (run trace s) = backs s /\ db (run trace s) = db s.
Proof.
  revert s. induction trace as [|[u e] trace IH]; intros s Hu Hq; simpl; [done|].
  apply Forall_cons in Hq as [He Hq]. simpl in He.
  destruct (step_unloaded s u e Hu He) as (Hu' & Hi & Ht & Hb & Hdb).
  destruct (IH (step s (u, e)) Hu' Hq) as (Hu'' & Hi' & Ht' & Hb' & Hdb').
  unfold run in *. by rewrite Hi', Ht', Hb', Hdb'.
Qed.

(** C6.  The editor is mounted for an id, and the fetch fails or the
    store has no document with that id.  Then the session does not start:
    [document] stays null, one destructive notification is shown, [onBack]
    is called once; and whatever follows (edits, timers, renames) issues no
    update call, shows no further notification and leaves the store as it
    was. *)
Theorem load_failure_no_session i m ok t trace :
  ok = false \/ m !! i = None ->
  Forall (fun te => is_load (snd te) = false) trace ->
  let s := step (mount i m) (t, Loaded ok) in
  document s = None /\ loading s = false /\ backs s = 1%nat
  /\ (exists message, toasts s = [mkToast "Error" message Destructive])
  /\ issued (run trace s) = [] /\ toasts (run trace s) = toasts s
  /\ backs (run trace s) = 1%nat /\ document (run trace s) = None
  /\ db (run trace s) = m.
Proof.
  intros Hfail Hq s.
  assert (Hs : exists message,
             s = mkState i 1 None false false emptyHTML [] [] []
                         [mkToast "Error" message Destructive] m).
  { subst s. unfold step, run_timers. simpl.
    destruct Hfail as [-> | Hm].
    - by eexists.
    - destruct ok; [|by eexists].
      unfold db_list_by_id. simpl. rewrite Hm. simpl. by eexists. }
  destruct Hs as [message Hs]. rewrite Hs.
  assert (Hu : unloaded (mkState i 1 None false false emptyHTML [] [] []
                                 [mkToast "Error" message Destructive] m)).
  { by repeat split. }
  destruct (run_unloaded trace _ Hu Hq) as ((Hd & _ & _) & Hi & Ht & Hb & Hdb).
  simpl in *. repeat split; try done. by exists message.
Qed.

Lemma load_failure_no_session_witness :
  let s := step (mount "doc_9" ∅) (5, Loaded true) in
  let trace := [(100, Edit "a"); (1200, Rename "T"); (3000, Wait)] in
  document s = None /\ loading s = false /\ backs s = 1%nat
  /\ (exists message, toasts s = [mkToast "Error" message Destructive])
  /\ issued (run trace s) = [] /\ toasts (run trace s) = toasts s
  /\ backs (run trace s) = 1%nat /\ document (run trace s) = None
  /\ db (run trace s) = ∅.
Proof.
  apply (load_failure_no_session "doc_9" ∅ true 5
           [(100, Edit "a"); (1200, Rename "T"); (3000, Wait)]).
  - right. reflexivity.
  - repeat constructor.
Defined.
End Session.

(** ** Importing a file: [handleFileImport] *)
Module Importing.
Import DocumentList Scenario.

Lemma endsWith_spec (s suffix : string) :
  endsWith s suffix = true <-> exists front, s = front +:+ suffix.
Proof.
  unfold endsWith. rewrite bool_decide_eq_true. split.
  - intros [k Hk]. exists (String.string_of_list_ascii k).
    rewrite <- (String.string_of_list_ascii_of_string s), Hk.
    rewrite <- (String.string_of_list_ascii_of_string suffix) at 2.
    generalize (String.list_ascii_of_string suffix) as l. intros l.
    clear Hk. induction k as [|a k IH]; simpl; [done|]. by rewrite IH.
  - intros [front ->]. exists (String.list_ascii_of_string front).
    induction front as [|a front IH]; simpl; [done|]. by rewrite IH.
Qed.

(** C7.  A file whose lower-cased name does not end in [.docx], or that
    the converter cannot read: the store, the list of documents and the
    selection are as before, and one destructive notification is added. *)
Theorem import_rejected_store_unchanged s f o :
  endsWith (toLowerCase (name f)) ".docx" = false \/ converted o = None ->
  let s' := handleFileImport (Some f) o s in
  db s' = db s /\ documents s' = documents s /\ selected s' = selected s
  /\ exists message, toasts s' = toasts s ++ [mkToast "Error" message Destructive].
Proof.
  intros Hrej s'. subst s'. unfold handleFileImport.
  destruct (endsWith (toLowerCase (name f)) ".docx") eqn:Hext; simpl.
  - destruct Hrej as [Hrej | Hconv]; [discriminate|].
    rewrite Hconv. simpl. repeat split. by eexists.
  - repeat split. by eexists.
Qed.

Lemma import_rejected_store_unchanged_witness :
  (endsWith (toLowerCase (name (mkFile "notes.txt"))) ".docx" = false
   \/ converted (mkOutcome None true None 7) = None)
  /\ let s' := handleFileImport (Some (mkFile "notes.txt"))
                 (mkOutcome None true None 7) empty_list in
     db s' = db empty_list /\ documents s' = documents empty_list
     /\ selected s' = selected empty_list
     /\ exists message,
          toasts s' = toasts empty_list ++ [mkToast "Error" message Destructive].
Proof.
  split; [left; by vm_compute|].
  apply (import_rejected_store_unchanged empty_list (mkFile "notes.txt")
           (mkOutcome None true None 7)).
  left. by vm_compute.
Defined.
End Importing.

(** ** Exporting: [exportToDocx] *)
Module Exporting.
Import DocumentEditor Notions.

Lemma split_not_nil sep s : split sep s <> [].
Proof.
  destruct s as [|c s]; simpl; [done|].
  destruct (c =? sep)%N; [done|]. by destruct (split sep s).
Qed.

(** Splitting loses nothing: joining the lines gives the text back. *)
Lemma join_split sep s : join sep (split sep s) = s.
Proof.
  induction s as [|c s IH]; simpl; [done|].
  destruct (N.eqb_spec c sep) as [->|Hne].
  - pose proof (split_not_nil sep s) as Hnn.
    destruct (split sep s) as [|l ls]; [done|]. simpl in *. by rewrite IH.
  - pose proof (split_not_nil sep s) as Hnn.
    destruct (split sep s) as [|l ls]; [done|].
    simpl in *. destruct ls; simpl in *; by rewrite <- IH.
Qed.

(** No line contains the separator. *)
Lemma split_lines sep s : Forall (fun line => sep ∉ line) (split sep s).
Proof.
  induction s as [|c s IH]; simpl.
  - repeat constructor. by intros ?%elem_of_nil.
  - destruct (N.eqb_spec c sep) as [->|Hne].
    + constructor; [by intros ?%elem_of_nil | done].
    + destruct (split sep s) as [|l ls]; simpl.
      * repeat constructor. intros Hin%list_elem_of_singleton. congruence.
      * apply Forall_cons in IH as [Hl Hls]. constructor; [|done].
        intros [?|?]%elem_of_cons; [congruence | done].
Qed.

Lemma trimStart_nil s : trimStart s = [] <-> blank s = true.
Proof.
  induction s as [|c s IH]; simpl; [done|].
  destruct (is_white_space c); simpl; [done|]. split; discriminate.
Qed.

(** What is left after [trimStart], if anything, starts with a character
    that is not white space. *)
Lemma trimStart_head s c r : trimStart s = c :: r -> is_white_space c = false.
Proof.
  induction s as [|x s IH]; simpl; [discriminate|].
  destruct (is_white_space x) eqn:Hx; [done|]. by intros [= <- _].
Qed.

Lemma blank_app a b : blank (a ++ b) = blank a && blank b.
Proof. apply forallb_app. Qed.

(** [p.trim()] is the empty string exactly for a blank [p]. *)
Lemma trim_truthy s : truthy (trim s) = negb (blank s).
Proof.
  unfold trim. destruct (trimStart s) as [|c r] eqn:Hs.
  - apply trimStart_nil in Hs. by rewrite Hs.
  - assert (Hb : blank s = false).
    { destruct (blank s) eqn:Hb; [|done]. apply trimStart_nil in Hb. congruence. }
    rewrite Hb. simpl.
    pose proof (trimStart_head s c r Hs) as Hc.
    destruct (trimStart (reverse (c :: r))) as [|x xs] eqn:Hr.
    + apply trimStart_nil in Hr. rewrite reverse_cons, blank_app in Hr.
      simpl in Hr. rewrite Hc in Hr. by destruct (blank (reverse r)).
    + rewrite reverse_cons. by destruct (reverse xs).
Qed.

Lemma filter_ext_bool {A} (f g : A -> bool) l :
  (forall x, f x = g x) -> List.filter f l = List.filter g l.
Proof. intros H. induction l as [|x l IH]; simpl; [done|]. by rewrite H, IH. Qed.

(** C10.  The text is cut at its newlines (the lines joined by newlines
    are the text again, and no line contains one).  The blank lines are
    dropped; each line that remains becomes one paragraph holding that
    line, in the order of the text; and when none remains the document
    has the single paragraph [Empty document]. *)
Theorem exportToDocx_paragraphs text :
  let lines := split LF text in
  let kept := List.filter (fun line => negb (blank line)) lines in
  join LF lines = text
  /\ Forall (fun line => LF ∉ line) lines
  /\ sections (exportToDocx_document text)
     = [ match kept with
         | [] => [mkParagraph [mkTextRun (code_units "Empty document")]]
         | _ :: _ => map (fun line => mkParagraph [mkTextRun line]) kept
         end ].
Proof.
  intros lines kept. split; [apply join_split|]. split; [apply split_lines|].
  unfold exportToDocx_document. cbn [sections].
  rewrite (filter_ext_bool (fun p => truthy (trim p)) (fun line => negb (blank line)))
    by apply trim_truthy.
  fold lines. fold kept. by destruct kept.
Qed.

(** The export of a text with blank lines between two words, and of a
    text of blank lines only. *)
Example export_two_lines :
  sections (exportToDocx_document ([32; 10; 97; 10; 9; 32; 10; 98; 32]%N))
  = [[mkParagraph [mkTextRun [97%N]]; mkParagraph [mkTextRun [98; 32]%N]]].
Proof. reflexivity. Qed.

Example export_blank :
  sections (exportToDocx_document ([32; 10; 160; 10]%N))
  = [[mkParagraph [mkTextRun (code_units "Empty document")]]].
Proof. reflexivity. Qed.
End Exporting.

(** ** What [debounce] calls *)
Module DebounceSpec.
Import Debounce Notions2.
Section DebounceSpec.
Context {A : Type}.
Variable wait : Z.

Lemma calls_from_armed (burst : list (Time * A)) (t : Time) (a : A) (stop : Time) :
  calls wait burst stop (Some (t + wait, a))
  = (if decide (t + wait <= next_time burst stop) then [a] else [])
      ++ quiet_after wait burst stop.
Proof.
  revert t a. induction burst as [|[t' a'] rest IH]; intros t a; simpl.
  - rewrite app_nil_r. by case_decide.
  - unfold executedFunction. case_decide; simpl; by rewrite IH.
Qed.

(** X1.  [func] is called exactly for the calls of the debounced function
    that are followed by [wait] of silence, in order and with the arguments
    of those calls; every other call is superseded by the next one. *)
Theorem debounce_calls_after_silence (burst : list (Time * A)) (stop : Time) :
  calls wait burst stop None = quiet_after wait burst stop.
Proof.
  destruct burst as [|[t a] rest]; simpl; [done|].
  unfold executedFunction. apply calls_from_armed.
Qed.
End DebounceSpec.
End DebounceSpec.

(** ** More on the editor's handlers *)
Module EditorMore.
Import DocumentEditor Notions Notions2 Scenario EditorFacts EditorView.

Lemma settle_pending k c ok now s :
  pending s !! k = Some c -> pending (settle k ok now s) = delete k (pending s).
Proof.
  intros Hk. unfold settle. rewrite Hk. destruct (call_resume c), ok; resumed.
Qed.

Lemma settle_save_saving k c cs ok now s :
  pending s !! k = Some c -> call_resume c = AfterSave cs ->
  saving (settle k ok now s) = false.
Proof. intros Hk Hr. unfold settle. rewrite Hk, Hr. reflexivity. Qed.

Lemma timeout_editorHTML tm s : editorHTML (timeout tm s) = editorHTML s.
Proof.
  unfold timeout, saveDocument.
  destruct (t_document tm); [|done]. by destruct (t_saving tm).
Qed.

Lemma fire_editorHTML l s : editorHTML (fire l s) = editorHTML s.
Proof.
  revert s. induction l as [|tm l IH]; intros s; simpl; [done|].
  unfold fire in IH. by rewrite IH, timeout_editorHTML.
Qed.

Lemma run_timers_editorHTML now s : editorHTML (run_timers now s) = editorHTML s.
Proof. unfold run_timers. by rewrite fire_editorHTML. Qed.

Lemma syncEditor_typed s : editorHTML s <> "" -> syncEditor s = s.
Proof.
  intros Hne. unfold syncEditor. destruct (document s); [|done]. by case_decide.
Qed.

Lemma handle_typed e now s :
  is_edit e = false -> editorHTML s <> "" ->
  editorHTML (handle e now s) = editorHTML s.
Proof.
  intros He Hne. destruct e as [ok|html|k ok|newTitle|]; try done; simpl.
  - unfold loadDocument_resume.
    destruct ok; [destruct (db_list_by_id _ _)|]; simpl; try done.
    by rewrite syncEditor_typed.
  - unfold settle. destruct (pending s !! k) as [c|]; [|done].
    destruct (call_resume c), ok; simpl;
      unfold saveDocument_resume, updateTitle_resume; simpl;
      try done; by rewrite syncEditor_typed.
  - unfold updateTitle. by destruct (document s).
Qed.

(** X2.  Opening a document that the store has: the component holds the
    stored record, loading is over, nothing was notified, written or
    navigated.  The editor is not filled with the stored content: it
    reports a non-empty string, so the guard [!editor.getHTML()] of the
    effect does not hold and the editor still shows its empty paragraph. *)
Theorem open_existing_document i m d t :
  m !! i = Some d ->
  let s := step (mount i m) (t, Loaded true) in
  document s = Some d /\ editorHTML s = emptyHTML /\ loading s = false
  /\ saving s = false /\ toasts s = [] /\ backs s = 0%nat
  /\ issued s = [] /\ db s = m.
Proof.
  intros Hm s. subst s. unfold step, run_timers. simpl.
  unfold db_list_by_id. simpl. rewrite Hm. simpl.
  unfold loadDocument_resume, syncEditor. simpl. by repeat split.
Qed.

Lemma open_existing_document_witness :
  let s := step (mount "doc_2" {[ "doc_2" := doc2 ]}) (3, Loaded true) in
  document s = Some doc2 /\ editorHTML s = emptyHTML /\ loading s = false
  /\ saving s = false /\ toasts s = [] /\ backs s = 0%nat
  /\ issued s = [] /\ db s = {[ "doc_2" := doc2 ]}.
Proof.
  apply (open_existing_document "doc_2" {[ "doc_2" := doc2 ]} doc2 3).
  by vm_compute.
Defined.

(** X3.  After a fulfilled content write the component's document and the
    store's record both hold the content that was sent and keep their id,
    title, owner and creation time; the store's [updated_at] is the time
    the write began, the component's is the time the call settled. *)
Theorem save_settled_in_sync s k d sent t0 now p r :
  pending s !! k = Some (save_call d sent t0) ->
  document s = Some p -> db s !! id d = Some r ->
  let s' := settle k true now s in
  exists p' r',
    document s' = Some p' /\ db s' !! id d = Some r'
    /\ content p' = or_empty sent /\ content r' = or_empty sent
    /\ updated_at r' = t0 /\ updated_at p' = now
    /\ (id p', title p', owner_user_id p', created_at p')
       = (id p, title p, owner_user_id p, created_at p)
    /\ (id r', title r', owner_user_id r', created_at r')
       = (id r, title r, owner_user_id r, created_at r).
Proof.
  intros Hk Hp Hr s'. subst s'.
  destruct (save_settled_store s k d sent t0 now r Hk Hr) as [Hdb _].
  pose proof (save_settled_document s k d sent t0 now p Hk Hp) as Hdoc.
  eexists _, _. split; [exact Hdoc|]. split; [exact Hdb|]. by repeat split.
Qed.

Lemma save_settled_in_sync_witness :
  let s' := settle 0 true 1400 writing in
  exists p' r',
    document s' = Some p' /\ db s' !! id doc1 = Some r'
    /\ content p' = or_empty (Some "a") /\ content r' = or_empty (Some "a")
    /\ updated_at r' = 1000 /\ updated_at p' = 1400
    /\ (id p', title p', owner_user_id p', created_at p')
       = (id doc1, title doc1, owner_user_id doc1, created_at doc1)
    /\ (id r', title r', owner_user_id r', created_at r')
       = (id doc1, title doc1, owner_user_id doc1, created_at doc1).
Proof.
  apply (save_settled_in_sync writing 0 doc1 (Some "a") 1000 1400 doc1 doc1);
    by vm_compute.
Defined.

(** X4.  When a content write settles, fulfilled or not, [saving] becomes
    false and the status bar reads 'Saved', whatever calls are still
    outstanding: the other outstanding calls remain so. *)
Theorem saved_shown_while_writing s k c cs ok now :
  pending s !! k = Some c -> call_resume c = AfterSave cs ->
  let s' := settle k ok now s in
  statusText s' = "Saved" /\ pending s' = delete k (pending s).
Proof.
  intros Hk Hr s'. subst s'. unfold statusText.
  rewrite (settle_save_saving k c cs ok now s Hk Hr).
  by rewrite (settle_pending k c ok now s Hk).
Qed.

Lemma saved_shown_while_writing_witness :
  let s := run [(0, Edit "a"); (100, Edit "ab"); (1100, Wait)] opened in
  let s' := settle 0 true 1200 s in
  statusText s' = "Saved" /\ pending s' = delete 0%nat (pending s).
Proof.
  apply (saved_shown_while_writing _ 0 (save_call doc1 (Some "a") 1000) "a" true 1200);
    by vm_compute.
Defined.

(** X5.  Only the user changes what has been typed: over any trace
    without an edit (loads, settled calls, renames, timers firing) a
    non-empty editor content stays as it is. *)
Theorem only_edits_change_typed_text trace s :
  Forall (fun te => is_edit (snd te) = false) trace ->
  editorHTML s <> "" ->
  editorHTML (run trace s) = editorHTML s.
Proof.
  revert s. induction trace as [|[u e] trace IH]; intros s Hq Hne; simpl; [done|].
  apply Forall_cons in Hq as [He Hq]. simpl in He.
  assert (Hstep : editorHTML (step s (u, e)) = editorHTML s).
  { unfold step. simpl. rewrite handle_typed; [apply run_timers_editorHTML|done|].
    by rewrite run_timers_editorHTML. }
  unfold run in IH. rewrite IH; [done|done|]. by rewrite Hstep.
Qed.

Lemma only_edits_change_typed_text_witness :
  editorHTML (run [(1300, Settle 0 true); (1500, Rename "T"); (1600, Loaded true)]
                  writing)
  = editorHTML writing.
Proof.
  apply (only_edits_change_typed_text
           [(1300, Settle 0 true); (1500, Rename "T"); (1600, Loaded true)] writing).
  - repeat constructor.
  - by vm_compute.
Defined.

Lemma step_editor_event s u e :
  editor_event e -> editorHTML s <> "" ->
  editorHTML (step s (u, e)) = last_html [(u, e)] (editorHTML s)
  /\ editorHTML (step s (u, e)) <> "".
Proof.
  intros He Hne. unfold step, last_html. simpl.
  destruct (is_edit e) eqn:Hedit.
  - destruct e as [ok|html|k ok|newTitle|]; try discriminate. simpl in *. done.
  - rewrite handle_typed, run_timers_editorHTML;
      [|done|by rewrite run_timers_editorHTML].
    split; [by destruct e | done].
Qed.

Lemma run_editor_events trace s :
  Forall (fun te => editor_event (snd te)) trace -> editorHTML s <> "" ->
  editorHTML (run trace s) = last_html trace (editorHTML s).
Proof.
  revert s. induction trace as [|[u e] trace IH]; intros s Hall Hne; [done|].
  apply Forall_cons in Hall as [He Hall]. simpl in He.
  destruct (step_editor_event s u e He Hne) as [Hs Hne'].
  unfold run, last_html in *. simpl. rewrite IH by done. by rewrite Hs.
Qed.

(** X6.  The effect on [document] never fills the editor: over every run
    from the mount in which the edits report what an editor can report
    (never the empty string), the editor shows the HTML of the last edit,
    or its empty paragraph when nothing was typed, whatever was loaded,
    written or renamed in between. *)
Theorem editor_shows_last_edit i m trace :
  Forall (fun te => editor_event (snd te)) trace ->
  editorHTML (run trace (mount i m)) = last_html trace emptyHTML.
Proof. intros Hall. by apply (run_editor_events trace (mount i m)). Qed.

Lemma editor_shows_last_edit_witness :
  editorHTML (run [(0, Loaded true); (10, Edit "<p>a</p>"); (1010, Wait);
                   (1200, Settle 0 true); (1300, Rename "T")]
                  (mount "doc_2" {[ "doc_2" := doc2 ]}))
  = last_html [(0, Loaded true); (10, Edit "<p>a</p>"); (1010, Wait);
               (1200, Settle 0 true); (1300, Rename "T")] emptyHTML.
Proof.
  apply (editor_shows_last_edit "doc_2" {[ "doc_2" := doc2 ]}).
  repeat constructor; done.
Defined.

(** *** Renaming *)

(** X7.  A rename is sent whether or not a write is in flight and leaves
    [saving] alone.  Once fulfilled, the component's document has the new
    title and is otherwise as before, and the store's record has the new
    title and the time of the rename as [updated_at], its content, owner
    and creation time untouched; one success notification is shown. *)
Theorem rename_changes_title_only s p r newTitle now later :
  document s = Some p -> db s !! id p = Some r ->
  let s1 := updateTitle newTitle now s in
  let s2 := settle (length (pending s)) true later s1 in
  issued s1 = issued s ++ [title_call p newTitle now]
  /\ saving s1 = saving s /\ saving s2 = saving s
  /\ document s2
     = Some (mkDocument (id p) newTitle (content p) (owner_user_id p)
                        (created_at p) (updated_at p))
  /\ db s2 !! id p
     = Some (mkDocument (id r) newTitle (content r) (owner_user_id r)
                        (created_at r) now)
  /\ toasts s2 = toasts s ++ [mkToast "Success" "Document title updated" Default].
Proof.
  intros Hp Hr s1 s2.
  assert (Hs1 : s1 = update (title_call p newTitle now) s).
  { subst s1. unfold updateTitle. by rewrite Hp. }
  assert (Hk : pending s1 !! length (pending s) = Some (title_call p newTitle now)).
  { rewrite Hs1. simpl. by apply list_lookup_middle. }
  split; [by rewrite Hs1|]. split; [by rewrite Hs1|].
  assert (Hdb : db s2 !! id p
                = Some (mkDocument (id r) newTitle (content r) (owner_user_id r)
                                   (created_at r) now)).
  { subst s2. rewrite (settle_db _ _ later s1 Hk). simpl. unfold db_update.
    rewrite lookup_alter_eq, Hs1. simpl. by rewrite Hr. }
  subst s2. unfold settle in *. rewrite Hk in *. simpl in *.
  unfold updateTitle_resume, syncEditor in *. rewrite Hs1 in *. simpl in *.
  rewrite Hp in *. simpl in *.
  destruct (decide (editorHTML s = "")); simpl in *; rewrite ?Hp; by repeat split.
Qed.

Lemma rename_changes_title_only_witness :
  let s1 := updateTitle "Notes" 1200 writing in
  let s2 := settle (length (pending writing)) true 1250 s1 in
  issued s1 = issued writing ++ [title_call doc1 "Notes" 1200]
  /\ saving s1 = saving writing /\ saving s2 = saving writing
  /\ document s2
     = Some (mkDocument (id doc1) "Notes" (content doc1) (owner_user_id doc1)
                        (created_at doc1) (updated_at doc1))
  /\ db s2 !! id doc1
     = Some (mkDocument (id doc1) "Notes" (content doc1) (owner_user_id doc1)
                        (created_at doc1) 1200)
  /\ toasts s2 = toasts writing ++ [mkToast "Success" "Document title updated" Default].
Proof.
  apply (rename_changes_title_only writing doc1 doc1 "Notes" 1200 1250);
    by vm_compute.
Defined.

(** X8.  A content write and a rename of the same document that are
    outstanding together do not undo each other: in whichever order the
    two calls are fulfilled, the store's record ends with the new title
    and the content sent, and [updated_at] is the start time of the call
    fulfilled last. *)
Theorem rename_and_save_commute s d sent t0 newTitle t1 n1 n2 r :
  pending s = [save_call d sent t0; title_call d newTitle t1] ->
  db s !! id d = Some r ->
  let save_first := settle 0 true n2 (settle 0 true n1 s) in
  let rename_first := settle 0 true n2 (settle 1 true n1 s) in
  db save_first !! id d
  = Some (mkDocument (id r) newTitle (or_empty sent) (owner_user_id r)
                     (created_at r) t1)
  /\ db rename_first !! id d
     = Some (mkDocument (id r) newTitle (or_empty sent) (owner_user_id r)
                        (created_at r) t0).
Proof.
  intros Hp Hr save_first rename_first. subst save_first rename_first. split.
  - rewrite (settle_db 0 (title_call d newTitle t1) n2).
    + rewrite (settle_db 0 (save_call d sent t0) n1) by (by rewrite Hp).
      simpl. unfold db_update. by rewrite !lookup_alter_eq, Hr.
    + rewrite (settle_pending 0 (save_call d sent t0)) by (by rewrite Hp).
      by rewrite Hp.
  - rewrite (settle_db 0 (save_call d sent t0) n2).
    + rewrite (settle_db 1 (title_call d newTitle t1) n1) by (by rewrite Hp).
      simpl. unfold db_update. by rewrite !lookup_alter_eq, Hr.
    + rewrite (settle_pending 1 (title_call d newTitle t1)) by (by rewrite Hp).
      by rewrite Hp.
Qed.

Lemma rename_and_save_commute_witness :
  let s := updateTitle "Notes" 1050 writing in
  let save_first := settle 0 true 1300 (settle 0 true 1200 s) in
  let rename_first := settle 0 true 1300 (settle 1 true 1200 s) in
  db save_first !! id doc1
  = Some (mkDocument (id doc1) "Notes" (or_empty (Some "a")) (owner_user_id doc1)
                     (created_at doc1) 1050)
  /\ db rename_first !! id doc1
     = Some (mkDocument (id doc1) "Notes" (or_empty (Some "a")) (owner_user_id doc1)
                        (created_at doc1) 1000).
Proof.
  apply (rename_and_save_commute (updateTitle "Notes" 1050 writing) doc1 (Some "a")
           1000 "Notes" 1050 1200 1300 doc1); by vm_compute.
Defined.
End EditorMore.

(** ** The word count *)
Module WordCount.
Import DocumentEditor Notions Notions2 EditorView.

Lemma split_spaces_not_nil g s : split_spaces g s <> [].
Proof.
  revert g. induction s as [|c s IH]; intros g; simpl; [done|].
  destruct (is_white_space c).
  - destruct g; [apply IH | done].
  - by destruct (split_spaces false s).
Qed.

(** How a character that is not white space extends the first piece. *)
Lemma split_spaces_cons g c s :
  is_white_space c = false ->
  split_spaces g (c :: s)
  = (c :: hd [] (split_spaces false s)) :: tl (split_spaces false s).
Proof.
  intros Hc. simpl. rewrite Hc.
  pose proof (split_spaces_not_nil false s).
  by destruct (split_spaces false s).
Qed.

Lemma count_gap s :
  counted (split_spaces true s) = wordCount s.
Proof.
  unfold wordCount, counted. destruct s as [|c s]; [done|].
  destruct (is_white_space c) eqn:Hc.
  - simpl. by rewrite Hc.
  - by rewrite !split_spaces_cons.
Qed.

Lemma count_after_separator a c b :
  is_white_space c = true ->
  (forall g, counted (split_spaces g (a ++ c :: b))
             = (counted (split_spaces g a) + wordCount b)%nat)
  /\ counted (tl (split_spaces false (a ++ c :: b)))
     = (counted (tl (split_spaces false a)) + wordCount b)%nat.
Proof.
  intros Hc. unfold counted in *. induction a as [|x a [IH1 IH2]].
  - split.
    + intros g. simpl. rewrite Hc. destruct g; simpl; apply count_gap.
    + simpl. rewrite Hc. simpl. apply count_gap.
  - destruct (is_white_space x) eqn:Hx.
    + split.
      * intros g. simpl. rewrite Hx. destruct g; simpl; apply IH1.
      * simpl. rewrite Hx. simpl. apply IH1.
    + split.
      * intros g. rewrite <- app_comm_cons, !split_spaces_cons by done.
        simpl. by rewrite IH2.
      * rewrite <- app_comm_cons, !split_spaces_cons by done. simpl. apply IH2.
Qed.

Lemma wordCount_sep a c b :
  is_white_space c = true ->
  wordCount (a ++ c :: b) = (wordCount a + wordCount b)%nat.
Proof. intros Hc. apply (count_after_separator a c b Hc). Qed.

Lemma wordCount_blank s : blank s = true -> wordCount s = 0%nat.
Proof.
  induction s as [|c s IH]; [done|]. simpl. intros [Hc Hs]%andb_prop.
  change (c :: s) with ([] ++ c :: s).
  rewrite (wordCount_sep [] c s Hc). by rewrite IH.
Qed.

Lemma split_spaces_word g w :
  forallb (fun c => negb (is_white_space c)) w = true -> split_spaces g w = [w].
Proof.
  revert g. induction w as [|c w IH]; intros g; [done|].
  simpl. intros [Hc Hw]%andb_prop. apply negb_true_iff in Hc.
  rewrite Hc, (IH false) by done. done.
Qed.

Lemma wordCount_word w : word w -> wordCount w = 1%nat.
Proof.
  intros [Hne Hw]. unfold wordCount. rewrite split_spaces_word by done.
  by destruct w.
Qed.

Lemma wordCount_prefix pre s : blank pre = true -> wordCount (pre ++ s) = wordCount s.
Proof.
  induction pre as [|c pre IH]; [done|]. simpl. intros [Hc Hp]%andb_prop.
  change (c :: pre ++ s) with ([] ++ c :: (pre ++ s)).
  rewrite (wordCount_sep [] c (pre ++ s) Hc). by rewrite IH.
Qed.

Lemma wordCount_suffix s post : blank post = true -> wordCount (s ++ post) = wordCount s.
Proof.
  destruct post as [|c post]; [by rewrite app_nil_r|].
  simpl. intros [Hc Hp]%andb_prop.
  rewrite (wordCount_sep s c post Hc), (wordCount_blank post Hp). lia.
Qed.

Lemma wordCount_join c ws :
  is_white_space c = true -> Forall word ws ->
  wordCount (join c ws) = length ws.
Proof.
  intros Hc. induction 1 as [|w ws Hw Hws IH]; [done|].
  destruct ws as [|w' ws].
  - simpl. by apply wordCount_word.
  - change (join c (w :: w' :: ws)) with (w ++ c :: join c (w' :: ws)).
    rewrite wordCount_sep by done. rewrite IH, wordCount_word by done.
    simpl. lia.
Qed.

(** X9.  White space between two texts separates their words: with a
    blank, non-empty gap between them, the count of the whole is the sum
    of the counts of the two texts. *)
Theorem wordCount_separator a gap b :
  gap <> [] -> blank gap = true ->
  wordCount (a ++ gap ++ b) = (wordCount a + wordCount b)%nat.
Proof.
  destruct gap as [|c gap]; [done|]. intros _. simpl. intros [Hc Hg]%andb_prop.
  by rewrite wordCount_sep, wordCount_prefix.
Qed.

Lemma wordCount_separator_witness :
  wordCount (code_units "to be" ++ [32; 10; 9]%N ++ code_units "or not")
  = (wordCount (code_units "to be") + wordCount (code_units "or not"))%nat.
Proof. apply wordCount_separator; [done | reflexivity]. Defined.

(** X10.  The count is the number of words: a text made of [n] words (not
    empty, free of white space) with a white-space character between
    neighbours, and any white space before and after, counts [n].  A
    blank text counts zero. *)
Theorem wordCount_counts_words pre c ws post :
  blank pre = true -> blank post = true ->
  is_white_space c = true -> Forall word ws ->
  wordCount (pre ++ join c ws ++ post) = length ws.
Proof.
  intros Hpre Hpost Hc Hws.
  by rewrite wordCount_prefix, wordCount_suffix, wordCount_join.
Qed.

Lemma wordCount_counts_words_witness :
  wordCount (code_units "  " ++
             join 32%N [code_units "to"; code_units "be"; code_units "or"]
             ++ [10%N])
  = length [code_units "to"; code_units "be"; code_units "or"].
Proof.
  apply wordCount_counts_words; try reflexivity.
  repeat constructor; done.
Defined.
End WordCount.

(** ** More on the export *)
Module ExportMore.
Import DocumentEditor Notions Notions2 Exporting.

Lemma split_line sep l : sep ∉ l -> split sep l = [l].
Proof.
  induction l as [|c l IH]; [done|]. intros Hin. simpl.
  destruct (N.eqb_spec c sep) as [->|Hne]; [by destruct Hin; left|].
  rewrite IH; [done|]. intros H. apply Hin. by right.
Qed.

Lemma split_app_sep sep l r :
  sep ∉ l -> split sep (l ++ sep :: r) = l :: split sep r.
Proof.
  induction l as [|c l IH]; intros Hin; simpl.
  - by rewrite N.eqb_refl.
  - destruct (N.eqb_spec c sep) as [->|Hne]; [by destruct Hin; left|].
    rewrite IH; [done|]. intros H. apply Hin. by right.
Qed.

(** Joining lines that hold no separator and splitting again gives the
    lines back. *)
Lemma split_join sep ls :
  ls <> [] -> Forall (fun l => sep ∉ l) ls -> split sep (join sep ls) = ls.
Proof.
  intros Hne Hall. induction Hall as [|l ls Hl Hls IH]; [done|].
  destruct ls as [|l' ls].
  - simpl. by apply split_line.
  - change (join sep (l :: l' :: ls)) with (l ++ sep :: join sep (l' :: ls)).
    rewrite split_app_sep by done. by rewrite IH.
Qed.

Lemma filter_keeps_all {A} (f : A -> bool) l :
  Forall (fun x => f x = true) l -> List.filter f l = l.
Proof. induction 1 as [|x l Hx _ IH]; simpl; [done|]. by rewrite Hx, IH. Qed.

(** The export of any text is the export of a non-empty list of lines
    that are neither blank nor broken. *)
Lemma export_lines text :
  exists ks,
    ks <> [] /\ Forall (fun l => blank l = false /\ LF ∉ l) ks
    /\ exportToDocx_document text
       = mkDocx [map (fun l => mkParagraph [mkTextRun l]) ks].
Proof.
  unfold exportToDocx_document.
  set (kept := List.filter (fun p => truthy (trim p)) (split LF text)).
  assert (Hkept : Forall (fun l => blank l = false /\ LF ∉ l) kept).
  { apply Forall_forall. intros l Hin. apply list_elem_of_In in Hin.
    apply filter_In in Hin as [Hin Ht]. rewrite trim_truthy in Ht.
    split; [by destruct (blank l)|].
    pose proof (split_lines LF text) as Hs.
    eapply Forall_forall in Hs; [exact Hs|]. by apply list_elem_of_In. }
  destruct kept as [|k rest] eqn:Hk.
  - exists [code_units "Empty document"]. split; [done|]. split; [|done].
    constructor; [|constructor]. split; [by vm_compute|].
    apply (bool_decide_unpack _). by vm_compute.
  - exists (k :: rest). by repeat split.
Qed.

(** X11.  An exported document is never empty and never holds a blank
    paragraph: it has one section with at least one paragraph, and every
    paragraph is a single run of text that is not blank and contains no
    newline. *)
Theorem export_well_formed text :
  exists ps,
    sections (exportToDocx_document text) = [ps] /\ ps <> []
    /\ Forall (fun p => exists t, children p = [mkTextRun t]
                                  /\ blank t = false /\ LF ∉ t) ps.
Proof.
  destruct (export_lines text) as (ks & Hne & Hks & ->).
  eexists. split; [done|]. split; [by destruct ks|].
  apply Forall_map. eapply Forall_impl; [exact Hks|].
  intros l [Hb Hl]. by exists l.
Qed.

(** X12.  Exporting is idempotent on what it produces: the paragraphs of
    an export, joined by newlines and exported again, give the same
    document. *)
Theorem export_idempotent text :
  exportToDocx_document
    (join LF (paragraph_texts (exportToDocx_document text)))
  = exportToDocx_document text.
Proof.
  destruct (export_lines text) as (ks & Hne & Hks & ->).
  assert (Htexts : paragraph_texts
                     (mkDocx [map (fun l => mkParagraph [mkTextRun l]) ks]) = ks).
  { unfold paragraph_texts. simpl. rewrite app_nil_r, map_map. simpl.
    clear. induction ks as [|k ks IH]; simpl; [done|]. by rewrite app_nil_r, IH. }
  rewrite Htexts. unfold exportToDocx_document.
  rewrite split_join; [|done|].
  - rewrite filter_keeps_all.
    + by destruct ks.
    + eapply Forall_impl; [exact Hks|]. intros l [Hb _].
      by rewrite trim_truthy, Hb.
  - eapply Forall_impl; [exact Hks|]. by intros l [_ Hl].
Qed.
End ExportMore.

(** ** The title field of the header *)
Module HeaderFacts.
Import DocumentEditor Notions Notions2 Exporting DocumentHeader.

(** [trimStart] cuts a blank front off. *)
Lemma trimStart_cut s : exists pre, s = pre ++ trimStart s /\ blank pre = true.
Proof.
  induction s as [|c s (pre & Hs & Hpre)]; [by exists []|].
  simpl. destruct (is_white_space c) eqn:Hc.
  - exists (c :: pre). simpl. by rewrite Hc, Hpre, <- Hs.
  - by exists [].
Qed.

(** What [trim] returns neither starts nor ends with white space. *)
Lemma trim_trimmed s : trimmed (trim s).
Proof.
  unfold trim. set (u := trimStart s). set (v := trimStart (reverse u)).
  split; intros c r Hr.
  - (* [c] is the last character of [v], so of [reverse u]: the first of [u] *)
    assert (Hv : v = reverse r ++ [c]).
    { rewrite <- (reverse_involutive v), Hr, reverse_cons. done. }
    destruct (trimStart_cut (reverse u)) as (pre & Hu & _). fold v in Hu.
    assert (Hu' : u = c :: reverse (pre ++ reverse r)).
    { rewrite <- (reverse_involutive u), Hu, Hv, app_assoc, reverse_app. done. }
    by apply (trimStart_head s c _ Hu').
  - assert (Hv : v = c :: reverse r).
    { rewrite <- (reverse_involutive v), Hr, reverse_app. done. }
    by apply (trimStart_head (reverse u) c _ Hv).
Qed.

(** X13.  Submitting the title field always ends the editing.  When
    [onTitleChange] is called, its argument is the typed text without the
    white space around it, it is not empty, and the typed text differed
    from the document's title; otherwise (blank or unchanged text) the
    field goes back to the document's title. *)
Theorem title_submit title s :
  let s' := fst (handleTitleSubmit title s) in
  editingTitle s' = false
  /\ match snd (handleTitleSubmit title s) with
     | Some t => t = trim (titleValue s) /\ t <> [] /\ trimmed t
                 /\ titleValue s <> title /\ titleValue s' = titleValue s
     | None => titleValue s' = title
               /\ (blank (titleValue s) = true \/ titleValue s = title)
     end.
Proof.
  unfold handleTitleSubmit.
  destruct (truthy (trim (titleValue s))) eqn:Ht; simpl.
  - case_bool_decide as Heq; simpl.
    + split; [done|]. split; [done|]. by right.
    + split; [done|]. repeat split; try done.
      * intros E. by rewrite E in Ht.
      * apply (trim_trimmed (titleValue s)).
      * apply (trim_trimmed (titleValue s)).
  - split; [done|]. split; [done|]. left.
    rewrite trim_truthy in Ht. by destruct (blank (titleValue s)).
Qed.

(** X14.  A typed text that differs from the document's title only by
    white space around it is submitted all the same: [onTitleChange] is
    called with the title the document already has. *)
Theorem title_resubmitted title v :
  title <> [] -> trim v = title -> v <> title ->
  snd (handleTitleSubmit title (mkHeader true v)) = Some title.
Proof.
  intros Hne Ht Hv. unfold handleTitleSubmit. simpl. rewrite Ht.
  rewrite bool_decide_eq_false_2 by done. by destruct title.
Qed.

Lemma title_resubmitted_witness :
  snd (handleTitleSubmit (code_units "Notes") (mkHeader true (code_units " Notes")))
  = Some (code_units "Notes").
Proof. apply title_resubmitted; by vm_compute. Defined.
End HeaderFacts.

(** ** Creating and importing documents *)
Module ListFacts.
Import DocumentList ListView Notions2 Scenario Importing.

(** X15.  A fulfilled [createNewDocument] puts an empty document titled
    'Untitled Document', owned by the user and stamped with the clock,
    into the store under its new id, leaves the other records alone,
    selects the new id and shows one success notification.  A rejected
    one changes neither store nor selection and shows one error.  The
    listed documents are not refreshed either way. *)
Theorem create_new_document s now :
  let made := createNewDocument true now s in
  let failed := createNewDocument false now s in
  db made !! doc_id now
  = Some (mkDocument (doc_id now) "Untitled Document" "" (user_id s) now now)
  /\ (forall j, j <> doc_id now -> db made !! j = db s !! j)
  /\ selected made = selected s ++ [doc_id now]
  /\ toasts made = toasts s ++ [mkToast "Success" "New document created" Default]
  /\ documents made = documents s
  /\ db failed = db s /\ selected failed = selected s
  /\ documents failed = documents s
  /\ toasts failed
     = toasts s ++ [mkToast "Error" "Failed to create document" Destructive].
Proof.
  simpl. unfold db_create. simpl. repeat split.
  - apply lookup_insert_eq.
  - intros j Hj. by apply lookup_insert_ne.
Qed.

(** X16.  Two documents made by [createNewDocument] get the same id
    exactly when they are made in the same millisecond. *)
Theorem new_ids_clash_within_a_millisecond s1 s2 t1 t2 :
  last (selected (createNewDocument true t1 s1))
  = last (selected (createNewDocument true t2 s2))
  <-> t1 = t2.
Proof.
  simpl. rewrite !last_snoc. unfold doc_id. split.
  - intros [= H]. by apply (inj pretty).
  - by intros ->.
Qed.

(** *** The title of an imported file *)

Lemma list_of_append a b :
  String.list_ascii_of_string (a +:+ b)
  = String.list_ascii_of_string a ++ String.list_ascii_of_string b.
Proof. induction a as [|c a IH]; simpl; [done|]. by rewrite IH. Qed.

Lemma list_of_inj a b :
  String.list_ascii_of_string a = String.list_ascii_of_string b -> a = b.
Proof.
  intros H. rewrite <- (String.string_of_list_ascii_of_string a), H.
  apply String.string_of_list_ascii_of_string.
Qed.

Lemma length_list_of a :
  length (String.list_ascii_of_string a) = String.length a.
Proof. induction a as [|c a IH]; simpl; [done|]. by rewrite IH. Qed.

Lemma toLowerCase_append a b :
  toLowerCase (a +:+ b) = toLowerCase a +:+ toLowerCase b.
Proof. induction a as [|c a IH]; simpl; [done|]. by rewrite IH. Qed.

Lemma toLowerCase_length a : String.length (toLowerCase a) = String.length a.
Proof. induction a as [|c a IH]; simpl; [done|]. by rewrite IH. Qed.

(** A string is its first [n] characters followed by the others. *)
Lemma keep_cut n s :
  (n <= String.length s)%nat ->
  exists back, s = keep n s +:+ back
               /\ (String.length back + n = String.length s)%nat.
Proof.
  unfold keep. revert n. induction s as [|c s IH]; intros n Hn.
  - destruct n; [|simpl in Hn; lia]. by exists "".
  - destruct n as [|n]; simpl.
    + exists (String c s). simpl. split; [done|lia].
    + destruct (IH n) as (back & Hs & Hl); [simpl in Hn; lia|].
      exists back. split; [|simpl; lia].
      change (String c s = String c (String.substring 0 n s +:+ back)).
      by rewrite <- Hs.
Qed.

(** Cutting a lower-cased name that ends in a given [ext]: the name is a
    stem followed by an ending that lower-cases to [ext]. *)
Lemma cut_extension name ext :
  endsWith (toLowerCase name) ext = true ->
  exists ending,
    name = keep (String.length name - String.length ext) name +:+ ending
    /\ toLowerCase ending = ext.
Proof.
  intros [front Hfront]%endsWith_spec.
  assert (Hlen : (String.length ext <= String.length name)%nat).
  { rewrite <- (toLowerCase_length name), Hfront, <- !length_list_of, list_of_append,
      length_app. lia. }
  destruct (keep_cut (String.length name - String.length ext) name) as (ending & Hn & Hl);
    [lia|].
  exists ending. split; [exact Hn|].
  rewrite Hn, toLowerCase_append in Hfront at 1.
  apply (f_equal String.list_ascii_of_string) in Hfront.
  rewrite !list_of_append in Hfront.
  apply app_inj_2 in Hfront as [_ Hext]; [by apply list_of_inj|].
  rewrite !length_list_of, toLowerCase_length. lia.
Qed.

(** X17.  For a file name accepted by the import, whatever the case of its
    extension, the name is the computed title followed by an ending that
    lower-cases to [.docx]: the title is the name without its last five
    characters. *)
Theorem imported_title name :
  endsWith (toLowerCase name) ".docx" = true ->
  exists ending,
    name = strip_extension name +:+ ending /\ toLowerCase ending = ".docx".
Proof.
  intros Hext. unfold strip_extension. rewrite Hext.
  apply (cut_extension name ".docx" Hext).
Qed.

Lemma imported_title_witness :
  exists ending,
    "Report.v2.DOCX" = strip_extension "Report.v2.DOCX" +:+ ending
    /\ toLowerCase ending = ".docx".
Proof. apply imported_title. by vm_compute. Defined.

(** X18.  An accepted file that converts and whose document the store
    takes: the store has, under the new id, a document with the converted
    HTML as content, the title taken from the file name ('Imported
    Document' when nothing is left of it), the user as owner and the clock
    as both times; that id is selected; the import flag is down; and the
    notifications are an error for the listing, if it failed, followed by
    the success of the import. *)
Theorem import_success s f o value messages :
  endsWith (toLowerCase (name f)) ".docx" = true ->
  converted o = Some (value, messages) -> created o = true ->
  let s' := handleFileImport (Some f) o s in
  let title := if decide (strip_extension (name f) = "") then "Imported Document"
               else strip_extension (name f) in
  db s' !! doc_id (now o)
  = Some (mkDocument (doc_id (now o)) title value (user_id s) (now o) (now o))
  /\ (forall j, j <> doc_id (now o) -> db s' !! j = db s !! j)
  /\ selected s' = selected s ++ [doc_id (now o)]
  /\ importing s' = false /\ loading s' = false
  /\ toasts s'
     = toasts s
       ++ (if decide (user_id s = "") then []
           else match list_failure o with
                | Some message => [list_failed_toast message]
                | None => []
                end)
       ++ [imported_toast title].
Proof.
  intros Hext Hconv Hcreated s' title. subst s' title.
  unfold handleFileImport. rewrite Hext, Hconv, Hcreated. simpl.
  unfold loadDocuments, db_create. simpl.
  destruct (decide (user_id s = "")); simpl.
  - repeat split; try (by rewrite app_nil_r).
    + apply lookup_insert_eq.
    + intros j Hj. by apply lookup_insert_ne.
  - destruct (list_failure o); simpl.
    + repeat split; try (by rewrite <- app_assoc).
      * apply lookup_insert_eq.
      * intros j Hj. by apply lookup_insert_ne.
    + repeat split.
      * apply lookup_insert_eq.
      * intros j Hj. by apply lookup_insert_ne.
Qed.

Lemma import_success_witness :
  let o := mkOutcome (Some ("<p>x</p>", [])) true (Some "offline") 1700 in
  let s' := handleFileImport (Some (mkFile "Report.DOCX")) o empty_list in
  db s' !! doc_id 1700
  = Some (mkDocument (doc_id 1700) "Report" "<p>x</p>" "user_1" 1700 1700)
  /\ (forall j, j <> doc_id 1700 -> db s' !! j = db empty_list !! j)
  /\ selected s' = selected empty_list ++ [doc_id 1700]
  /\ importing s' = false /\ loading s' = false
  /\ toasts s'
     = toasts empty_list ++ [list_failed_toast "offline"] ++ [imported_toast "Report"].
Proof.
  apply (import_success empty_list (mkFile "Report.DOCX")
           (mkOutcome (Some ("<p>x</p>", [])) true (Some "offline") 1700)
           "<p>x</p>" []); by vm_compute.
Defined.
End ListFacts.

(** ** Listing, searching and drawing the cards *)
Module CardFacts.
Import DocumentEditor DocumentList ListView Notions Notions2 Scenario.

(** X19.  [loadDocuments] without a user id or with a failing store:
    the listed documents stay as they were, the store is not touched,
    loading ends, and only a failing store is notified, with the error's
    message or 'Unknown error'. *)
Theorem load_documents_failure failure s :
  user_id s = "" \/ is_Some failure ->
  let s' := loadDocuments failure s in
  loading s' = false /\ documents s' = documents s /\ db s' = db s
  /\ selected s' = selected s
  /\ toasts s'
     = toasts s
       ++ (if decide (user_id s = "") then []
           else match failure with
                | Some message => [list_failed_toast message]
                | None => []
                end).
Proof.
  intros Hf. unfold loadDocuments. simpl.
  destruct (decide (user_id s = "")); simpl.
  - by rewrite app_nil_r.
  - destruct Hf as [Hu | [message ->]]; [done|]. by repeat split.
Qed.

Lemma load_documents_failure_witness :
  let s' := loadDocuments (Some "") empty_list in
  loading s' = false /\ documents s' = documents empty_list
  /\ db s' = db empty_list /\ selected s' = selected empty_list
  /\ toasts s' = toasts empty_list ++ [list_failed_toast ""].
Proof.
  apply (load_documents_failure (Some "") empty_list). right. by eexists.
Defined.

#[local] Instance newer_first_total : Total newer_first.
Proof. intros a b. unfold newer_first. lia. Qed.

(** X20.  A listing that succeeds shows exactly the store's documents of
    the user, newest first; each card is labelled 'You', never 'Shared';
    nothing is notified. *)
Theorem load_documents_lists_own s :
  user_id s <> "" ->
  let s' := loadDocuments None s in
  loading s' = false /\ toasts s' = toasts s /\ db s' = db s
  /\ documents s'
     ≡ₚ filter (fun d => owner_user_id d = user_id s) (snd <$> map_to_list (db s))
  /\ Sorted newer_first (documents s')
  /\ Forall (fun d => ownerLabel (user_id s) d = "You"
                      /\ exists k, db s !! k = Some d) (documents s').
Proof.
  intros Hu. unfold loadDocuments. simpl.
  destruct (decide (user_id s = "")); [done|]. simpl.
  unfold db_list_by_owner. repeat split.
  - apply merge_sort_Permutation.
  - apply Sorted_merge_sort. apply _.
  - apply Forall_forall. intros d Hd.
    rewrite merge_sort_Permutation in Hd.
    apply list_elem_of_filter in Hd as [Ho Hd].
    apply list_elem_of_fmap in Hd as [[k d'] [-> Hd]].
    apply elem_of_map_to_list in Hd. simpl in *.
    split; [|by exists k]. unfold ownerLabel. by rewrite bool_decide_eq_true_2.
Qed.

Lemma load_documents_lists_own_witness :
  let s := createNewDocument true 1700 empty_list in
  let s' := loadDocuments None s in
  loading s' = false /\ toasts s' = toasts s /\ db s' = db s
  /\ documents s'
     ≡ₚ filter (fun d => owner_user_id d = user_id s) (snd <$> map_to_list (db s))
  /\ Sorted newer_first (documents s')
  /\ Forall (fun d => ownerLabel (user_id s) d = "You"
                      /\ exists k, db s !! k = Some d) (documents s').
Proof.
  apply (load_documents_lists_own (createNewDocument true 1700 empty_list)).
  by vm_compute.
Defined.

(** *** The search box *)

Lemma startsWith_spec s sub :
  startsWith s sub = true <-> exists back, s = sub +:+ back.
Proof.
  revert s. induction sub as [|a sub IH]; intros s; simpl.
  - split; [intros _; by exists s | by destruct s].
  - destruct s as [|b s]; simpl.
    + split; [done | by intros [back Hb]].
    + rewrite andb_true_iff, bool_decide_eq_true, IH. split.
      * intros [-> [back ->]]. by exists back.
      * intros [back Hb]. injection Hb as -> ->. split; [done | by exists back].
Qed.

Lemma includes_spec s sub : includes s sub = true <-> contains s sub.
Proof.
  unfold contains. induction s as [|b s IH]; cbn [includes].
  - rewrite orb_false_r, startsWith_spec. split.
    + intros [back Hb]. by exists "", back.
    + intros (front & back & Hs). destruct front; [by exists back | done].
  - rewrite orb_true_iff, startsWith_spec, IH. split.
    + intros [[back Hb] | (front & back & Hs)].
      * by exists "", back.
      * exists (String b front), back. by rewrite Hs.
    + intros (front & back & Hs). destruct front as [|c front].
      * left. by exists back.
      * right. injection Hs as -> ->. by exists front, back.
Qed.

(** X21.  With an empty search box every document is shown. *)
Theorem search_empty_shows_all lower documents :
  lower "" = "" -> filteredDocuments lower "" documents = documents.
Proof.
  intros Hl. unfold filteredDocuments. rewrite Hl.
  induction documents as [|d ds IH]; simpl; [done|].
  assert (Hinc : forall s, includes s "" = true) by (by intros []).
  by rewrite Hinc, IH.
Qed.

Lemma search_empty_shows_all_witness :
  filteredDocuments toLowerCase "" [doc1; doc1] = [doc1; doc1].
Proof. apply search_empty_shows_all. reflexivity. Defined.

(** X22.  A document is shown for a search term exactly when it is listed
    and its lower-cased title or its lower-cased content contains the
    lower-cased term; the documents shown keep the order of the list. *)
Theorem search_shows_matches lower term documents :
  (forall d,
     In d (filteredDocuments lower term documents)
     <-> In d documents
         /\ (contains (lower (title d)) (lower term)
             \/ contains (lower (content d)) (lower term)))
  /\ sublist (filteredDocuments lower term documents) documents.
Proof.
  split.
  - intros d. unfold filteredDocuments.
    by rewrite filter_In, orb_true_iff, !includes_spec.
  - unfold filteredDocuments. induction documents as [|d ds IH]; simpl; [done|].
    destruct (_ || _); by constructor.
Qed.

(** *** The date of a card *)

(** X23.  [formatDate] reads the distance between the two times in whole
    days: 'Today' under one day, 'Yesterday' from one day to under two,
    'n days ago' for n from 2 to 6, and the locale's date from seven days
    on. *)
Theorem formatDate_bands date now :
  let distance := Z.abs (now - date) in
  (formatDate date now = Today <-> distance < day)
  /\ (formatDate date now = Yesterday <-> day <= distance < 2 * day)
  /\ (forall n, formatDate date now = DaysAgo n
                <-> 2 <= n <= 6 /\ n * day <= distance < (n + 1) * day)
  /\ (formatDate date now = LocaleDate date <-> 7 * day <= distance).
Proof.
  unfold formatDate, day. simpl.
  set (distance := Z.abs (now - date)).
  assert (H0 : 0 <= distance) by apply Z.abs_nonneg.
  pose proof (Z.div_mod distance 86400000 ltac:(lia)) as Hdm.
  pose proof (Z.mod_pos_bound distance 86400000 ltac:(lia)) as Hm.
  change (1000 * 60 * 60 * 24) with 86400000 in *.
  set (q := distance `div` 86400000) in *.
  destruct (Z.eqb_spec q 0) as [E0|E0];
    [|destruct (Z.eqb_spec q 1) as [E1|E1];
      [|destruct (Z.ltb_spec q 7) as [E7|E7]]];
    repeat split; try discriminate; try lia;
    try (intros [= <-]; lia); try (intros ?; f_equal; lia);
    try (match goal with H : DaysAgo _ = DaysAgo _ |- _ => injection H as <- end; lia).
Qed.

(** X24.  [formatDate] does not tell past from future: a date as far
    ahead of now as another is behind it gets the same label. *)
Theorem future_dates_read_as_past date now :
  formatDate (now + (now - date)) now
  = match formatDate date now with
    | LocaleDate _ => LocaleDate (now + (now - date))
    | label => label
    end.
Proof.
  unfold formatDate.
  replace (Z.abs (now - (now + (now - date)))) with (Z.abs (now - date)) by lia.
  by repeat case_match.
Qed.
End CardFacts.

(** ** The text of a card *)
Module PreviewFacts.
Import DocumentEditor ListView Notions Notions2.

Lemma has_GT rest : existsb (N.eqb GT) rest = true <-> GT ∈ rest.
Proof.
  rewrite existsb_exists. split.
  - intros (x & Hin & Hx). apply N.eqb_eq in Hx. subst x. by apply list_elem_of_In.
  - intros Hin. exists GT. split; [by apply list_elem_of_In | apply N.eqb_refl].
Qed.

(** Stripping only deletes. *)
Lemma strip_sublist g s : sublist (strip_tags g s) s.
Proof.
  revert g. induction s as [|c s IH]; intros g; simpl; [done|].
  destruct g.
  - destruct (c =? GT)%N; by constructor.
  - destruct ((c =? LT)%N && existsb (N.eqb GT) s); by constructor.
Qed.

Lemma strip_subset g s x : x ∈ strip_tags g s -> x ∈ s.
Proof. apply sublist_subseteq, strip_sublist. Qed.

Lemma tag_free_strip g s : tag_free (strip_tags g s).
Proof.
  revert g. induction s as [|c s IH]; intros g; simpl.
  - intros a b Hab. by destruct a.
  - destruct g.
    + destruct (c =? GT)%N; apply IH.
    + destruct ((c =? LT)%N && existsb (N.eqb GT) s) eqn:Hc; [apply IH|].
      intros a b Hab. destruct a as [|x a]; simpl in Hab.
      * injection Hab as -> <-. rewrite N.eqb_refl in Hc. simpl in Hc.
        intros Hin%strip_subset%has_GT. congruence.
      * injection Hab as -> Hs. by apply (IH false a b).
Qed.

Lemma tag_free_tail c s : tag_free (c :: s) -> tag_free s.
Proof. intros H a b ->. by apply (H (c :: a) b). Qed.

Lemma tag_free_fixed s : tag_free s -> strip_tags false s = s.
Proof.
  induction s as [|c s IH]; [done|]. intros Hf. simpl.
  rewrite IH by (by eapply tag_free_tail).
  destruct (N.eqb_spec c LT) as [->|Hne]; [|done]. simpl.
  destruct (existsb (N.eqb GT) s) eqn:Hg; [|done].
  apply has_GT in Hg. by destruct (Hf [] s eq_refl).
Qed.

Lemma tag_free_take n s : tag_free s -> tag_free (take n s).
Proof.
  intros Hf a b Hab. rewrite <- (take_drop n s), Hab, <- app_assoc in Hf.
  intros Hin. apply (Hf a (b ++ drop n s) eq_refl).
  apply elem_of_app. by left.
Qed.

(** X25.  After the tags are stripped no tag is left, so stripping again
    changes nothing; and stripping only deletes characters, keeping the
    others in their order. *)
Theorem strip_tags_removes_tags s :
  tag_free (strip_tags false s)
  /\ strip_tags false (strip_tags false s) = strip_tags false s
  /\ sublist (strip_tags false s) s.
Proof.
  split; [apply tag_free_strip|]. split; [|apply strip_sublist].
  apply tag_free_fixed, tag_free_strip.
Qed.

(** X26.  A text in which no [<] is followed by a [>] is left as it is:
    a lone [<] or [>] is not taken for a tag. *)
Theorem plain_text_untouched s :
  tag_free s -> strip_tags false s = s.
Proof. apply tag_free_fixed. Qed.

Lemma plain_text_untouched_witness :
  strip_tags false (code_units "1 < 2") = code_units "1 < 2".
Proof.
  apply plain_text_untouched. intros a b Hab. vm_compute in Hab.
  do 5 (destruct a as [|? a]; simpl in Hab;
        [ first [ discriminate Hab
                | injection Hab as <-; apply (bool_decide_unpack _); by vm_compute ]
        | injection Hab as _ Hab ]).
  by destruct a.
Defined.

(** X27.  The card of a document with content shows at most a hundred
    characters of the content without its tags, followed by three dots:
    at most 103 characters, no tag among them.  Only an empty content is
    shown as 'Empty document'; a content of nothing but tags shows the
    three dots alone. *)
Theorem preview_of_content content :
  content <> [] ->
  exists body,
    preview content = body ++ code_units "..."
    /\ body = take 100 (strip_tags false content)
    /\ (length body <= 100)%nat /\ (length (preview content) <= 103)%nat
    /\ tag_free body /\ sublist body content
    /\ preview content <> code_units "Empty document".
Proof.
  intros Hne. exists (take 100 (strip_tags false content)).
  assert (Hp : preview content
               = take 100 (strip_tags false content) ++ code_units "...").
  { unfold preview. by destruct content. }
  assert (Hl : (length (take 100 (strip_tags false content)) <= 100)%nat).
  { rewrite length_take. lia. }
  split; [exact Hp|]. split; [done|]. split; [exact Hl|].
  split; [rewrite Hp, length_app; simpl; lia|].
  split; [apply tag_free_take, tag_free_strip|].
  split; [etrans; [apply sublist_take | apply strip_sublist]|].
  rewrite Hp. intros Heq.
  apply (f_equal last) in Heq. rewrite last_app in Heq. by vm_compute in Heq.
Qed.

Lemma preview_of_content_witness :
  exists body,
    preview (code_units "<p></p>") = body ++ code_units "..."
    /\ body = take 100 (strip_tags false (code_units "<p></p>"))
    /\ (length body <= 100)%nat
    /\ (length (preview (code_units "<p></p>")) <= 103)%nat
    /\ tag_free body /\ sublist body (code_units "<p></p>")
    /\ preview (code_units "<p></p>") <> code_units "Empty document".
Proof. apply preview_of_content. discriminate. Defined.
End PreviewFacts.

(** ** The pages of the application *)
Module AppFacts.
Import App Notions2.

Lemma run_auth_keeps_document auths s :
  Forall is_auth auths -> currentDocumentId (app_run auths s) = currentDocumentId s.
Proof.
  intros Hall. revert s. induction Hall as [|e auths He _ IH]; intros s; [done|].
  simpl. unfold app_run in IH. rewrite IH. by destruct e.
Qed.

(** X28.  The selected document outlives the session: after a document
    is selected, however the authentication state changes afterwards
    (signing out, another user signing in), the next signed-in page is the
    editor on that document; only [onBack] brings the list back. *)
Theorem document_reopens_after_sign_in s i auths u :
  i <> "" -> Forall is_auth auths ->
  let s' := app_run (DocumentSelect i :: auths ++ [AuthStateChanged (Some u) false]) s in
  render s' = Editor i u /\ render (app_handle s' Back) = List u.
Proof.
  intros Hi Hall s'. subst s'.
  pose proof (run_auth_keeps_document auths (app_handle s (DocumentSelect i)) Hall) as Hk.
  change (app_run (DocumentSelect i :: auths ++ [AuthStateChanged (Some u) false]) s)
    with (app_run (auths ++ [AuthStateChanged (Some u) false])
              (app_handle s (DocumentSelect i))).
  unfold app_run in *. rewrite fold_left_app.
  set (s1 := fold_left app_handle auths (app_handle s (DocumentSelect i))) in *.
  unfold render. simpl. rewrite Hk. simpl. by rewrite decide_False.
Qed.

Lemma document_reopens_after_sign_in_witness :
  let s' := app_run (DocumentSelect "doc_1"
                   :: [AuthStateChanged None false; AuthStateChanged None true]
                        ++ [AuthStateChanged (Some "user_2") false]) initial in
  render s' = Editor "doc_1" "user_2" /\ render (app_handle s' Back) = List "user_2".
Proof.
  apply (document_reopens_after_sign_in initial "doc_1"
           [AuthStateChanged None false; AuthStateChanged None true] "user_2").
  - discriminate.
  - repeat constructor.
Defined.
End AppFacts.

(** ** Invariants of the editor *)
Module EditorInvariants.
Import DocumentEditor Notions Notions2 Scenario EditorFacts EditorView EditorMore.

Lemma has_save_app l k : has_save l -> has_save (l ++ k).
Proof. intros (c & cs & Hin & Hr). exists c, cs. split; [|done]. apply elem_of_app. by left. Qed.

Lemma elem_of_delete_other {A} (l : list A) k c x :
  l !! k = Some c -> x ∈ l -> x <> c -> x ∈ delete k l.
Proof.
  intros Hk [j Hj]%list_elem_of_lookup Hne. apply list_elem_of_lookup.
  destruct (decide (j < k)%nat) as [Hlt|Hge].
  - exists j. by rewrite list_lookup_delete_lt.
  - assert (j <> k) by (intros ->; congruence).
    exists (j - 1)%nat. rewrite list_lookup_delete_ge by lia.
    by replace (S (j - 1)) with j by lia.
Qed.

Lemma timeout_backed tm s : saving_backed s -> saving_backed (timeout tm s).
Proof.
  intros Hs. unfold timeout, saveDocument.
  destruct (t_document tm) as [d|]; [|done]. destruct (t_saving tm); [done|].
  simpl. intros _.
  exists (save_call d (Some (t_content tm)) (due tm)), (or_empty (Some (t_content tm))).
  split; [|reflexivity].
  apply elem_of_app. right. by apply list_elem_of_singleton.
Qed.

Lemma fire_backed l s : saving_backed s -> saving_backed (fire l s).
Proof.
  revert s. induction l as [|tm l IH]; intros s Hs; [done|].
  apply (IH (timeout tm s)). by apply timeout_backed.
Qed.

Lemma handle_backed e now s : saving_backed s -> saving_backed (handle e now s).
Proof.
  intros Hs. destruct e as [ok|html|k ok|newTitle|]; simpl; try done.
  - unfold saving_backed, loadDocument_resume, syncEditor in *.
    destruct ok; resumed.
  - unfold settle. destruct (pending s !! k) as [c|] eqn:Hk; [|done].
    destruct (call_resume c) as [cs|t] eqn:Hr; [done|].
    intros Hsav.
    assert (Hsav' : saving s = true).
    { revert Hsav. unfold updateTitle_resume, syncEditor. destruct ok; resumed. }
    destruct (Hs Hsav') as (c' & cs & Hin & Hr').
    assert (Hp : pending (updateTitle_resume ok t
                   (if ok then set_db (db_update (call_id c) (call_fields c) (db s))
                                  (set_pending (delete k (pending s)) s)
                    else set_pending (delete k (pending s)) s))
                 = delete k (pending s)).
    { unfold updateTitle_resume, syncEditor. destruct ok; resumed. }
    simpl. rewrite Hp. exists c', cs. split; [|done].
    apply (elem_of_delete_other _ k c); [done..|congruence].
  - unfold updateTitle. destruct (document s); [|done].
    intros Hsav. simpl in *. by apply has_save_app, Hs.
Qed.

Lemma step_backed s te : saving_backed s -> saving_backed (step s te).
Proof.
  intros Hs. unfold step. apply handle_backed. unfold run_timers.
  apply fire_backed. exact Hs.
Qed.

Lemma run_backed trace s : saving_backed s -> saving_backed (run trace s).
Proof.
  revert s. induction trace as [|te trace IH]; intros s Hs; [done|].
  apply (IH (step s te)). by apply step_backed.
Qed.

(** X29.  Over every run of the editor, whenever [saving] is true (the
    status bar reads 'Saving...') a content write is outstanding: the
    indicator never stays up after the last write has settled. *)
Theorem saving_means_write_outstanding i m trace :
  let s := run trace (mount i m) in
  statusText s = "Saving..." -> has_save (pending s).
Proof.
  intros s Hst.
  assert (Hinv : saving_backed s) by (by apply run_backed).
  apply Hinv. unfold statusText in Hst. by destruct (saving s).
Qed.

Lemma saving_means_write_outstanding_witness :
  has_save (pending (run [(0, Loaded true); (5, Edit "a"); (1005, Wait)]
                         (mount "doc_1" {[ "doc_1" := doc1 ]}))).
Proof.
  apply (saving_means_write_outstanding "doc_1" {[ "doc_1" := doc1 ]}
           [(0, Loaded true); (5, Edit "a"); (1005, Wait)]).
  by vm_compute.
Defined.

Lemma handle_loaded e now s : is_Some (document s) -> is_Some (document (handle e now s)).
Proof.
  intros [d Hd]. destruct e as [ok|html|k ok|newTitle|]; simpl; try by eexists.
  - unfold loadDocument_resume, syncEditor.
    destruct ok; [destruct (db_list_by_id _ _)|]; simpl; rewrite ?Hd;
      resumed; by eexists.
  - unfold settle. destruct (pending s !! k) as [c|]; [|by eexists].
    destruct (call_resume c), ok; simpl;
      unfold saveDocument_resume, updateTitle_resume, syncEditor; simpl;
      rewrite ?Hd; simpl; resumed; by eexists.
  - unfold updateTitle. rewrite Hd. simpl. by eexists.
Qed.

(** X30.  A loaded document is never unloaded: whatever happens after a
    successful load (failed reloads, failed writes, renames), the
    component keeps a document. *)
Theorem loaded_stays_loaded trace s :
  is_Some (document s) -> is_Some (document (run trace s)).
Proof.
  revert s. induction trace as [|[u e] trace IH]; intros s Hs; [done|].
  apply (IH (step s (u, e))). unfold step. simpl.
  apply handle_loaded. by rewrite run_timers_document.
Qed.

Lemma loaded_stays_loaded_witness :
  is_Some (document (run [(10, Loaded false); (20, Edit "a"); (1020, Settle 0 false)]
                         opened)).
Proof. apply loaded_stays_loaded. exists doc1. by vm_compute. Defined.
End EditorInvariants.
